(** * ArduLog AI Analyst: a shallow embedding of [src/index.tsx]

    The application is one React component, [App], whose state is ten
    [useState] cells and whose behaviour is a handful of event handlers, three
    of them [async].  The embedding has four layers:

    - [JS]: the string built-ins the handlers call, over UTF-16 code units;
    - the data model: files, SDK values, the component state [AppState];
    - the handlers, written in a small trace monad [M]: a handler run yields
      the sequence of state updates, outgoing calls and resumptions it
      performs, in program order, and whether it threw.  What the outside
      world answers (whether a file can be read, what the remote model
      streams back, where it fails) is an argument of the handler;
    - the runtime ([turn], [reachable]): handlers are launched on user
      actions and interleave at their [await] points.

    Platform functions the source calls but does not define (Unicode
    lower-casing, UTF-8 decoding, [FileReader], [URL.createObjectURL]) are the
    fields of the class [Browser]; every statement holds for any browser, and
    [Sample.browser] is one to run the handlers on.  The markup, apart from
    the report renderer, the icons and the effect that scrolls the chat into
    view are not modelled.

    The definitions come first, then the facts: the string functions, the
    hardware form, file ingestion, the renderer, the analysis and chat
    orchestrators, and the invariant that ties the chat session to the
    completion of an analysis. *)

From Stdlib Require Import String Ascii.
From Stdlib Require Import List Arith NArith Bool Lia.
From Stdlib Require Import Init.Byte.
Import ListNotations.

Set Implicit Arguments.

(* ================================================================== *)
(** * JavaScript strings *)
(* ================================================================== *)

Module JS.

(** A JS string is a sequence of 16-bit code units. *)
Definition char := N.
Definition str := list char.

(** An ASCII literal of the source, as code units. *)
Definition lit (s : string) : str :=
  map N_of_ascii (list_ascii_of_string s).

Definition nl : char := 10%N.

Fixpoint eqb (a b : str) : bool :=
  match a, b with
  | [], [] => true
  | x :: a', y :: b' => N.eqb x y && eqb a' b'
  | _, _ => false
  end.

(** Truthiness of a string: [if (s)], [!s], [s || d]. *)
Definition truthy (s : str) : bool :=
  match s with [] => false | _ :: _ => true end.

(** [s || d] on strings. *)
Definition or_else (s d : str) : str := if truthy s then s else d.

(** [s.startsWith(p)]. *)
Fixpoint startsWith (s p : str) {struct p} : bool :=
  match p, s with
  | [], _ => true
  | _ :: _, [] => false
  | y :: p', x :: s' => N.eqb x y && startsWith s' p'
  end.

(** [s.endsWith(p)]: the code units of [s] from [length s - length p] on
    are those of [p]; false when [p] is longer than [s]. *)
Definition endsWith (s p : str) : bool :=
  Nat.leb (length p) (length s) && eqb (skipn (length s - length p) s) p.

(** [s.substring(n)]. *)
Definition substring (n : nat) (s : str) : str := skipn n s.

(** [s.split(c)] for a separator of one code unit (the source splits on
    ['\n'] and on [',']).  The result is never empty: a string without
    the separator, the empty string included, is its only piece. *)
Fixpoint split (sep : char) (s : str) : list str :=
  match s with
  | [] => [[]]
  | c :: r =>
      if N.eqb c sep then [] :: split sep r
      else match split sep r with
           | piece :: pieces => (c :: piece) :: pieces
           | [] => [[c]]
           end
  end.

(** [s.replace(pat, rep)] with a string pattern: the first occurrence
    only.  ([rep] is [''] in the source, so no [$]-pattern arises.) *)
Fixpoint replace (pat rep s : str) : str :=
  if startsWith s pat then rep ++ skipn (length pat) s
  else match s with
       | [] => []
       | c :: r => c :: replace pat rep r
       end.

(** [s.replace(/pat/g, rep)] for a literal, non-empty [pat]: matches are
    found left to right and do not overlap.  [skip] counts the code units
    of the current match that are still to be passed over. *)
Fixpoint replaceAll_from (pat rep : str) (skip : nat) (s : str) : str :=
  match s with
  | [] => []
  | c :: r =>
      match skip with
      | S k => replaceAll_from pat rep k r
      | O =>
          if startsWith s pat
          then rep ++ replaceAll_from pat rep (length pat - 1) r
          else c :: replaceAll_from pat rep 0 r
      end
  end.

Definition replaceAll (pat rep s : str) : str := replaceAll_from pat rep 0 s.

(** The code units [String.prototype.trim] strips: ECMAScript's WhiteSpace
    (TAB, VT, FF, SP, NBSP, ZWNBSP and the space separators) and
    LineTerminator (LF, CR, LS, PS). *)
Definition isWhiteSpace (c : char) : bool :=
  match c with
  | 9 | 10 | 11 | 12 | 13 | 32 | 160 | 5760
  | 8192 | 8193 | 8194 | 8195 | 8196 | 8197 | 8198 | 8199 | 8200 | 8201 | 8202
  | 8232 | 8233 | 8239 | 8287 | 12288 | 65279 => true
  | _ => false
  end%N.

Fixpoint trimStart (s : str) : str :=
  match s with
  | c :: r => if isWhiteSpace c then trimStart r else s
  | [] => []
  end.

(** [s.trim()]. *)
Definition trim (s : str) : str := rev (trimStart (rev (trimStart s))).

(** Concatenation of lines with ['\n'] between them: how the multi-line
    literals of the source are written down here. *)
Fixpoint lines (ls : list str) : str :=
  match ls with
  | [] => []
  | [l] => l
  | l :: rest => l ++ nl :: lines rest
  end.

End JS.

Abbreviation jsstring := JS.str.
Abbreviation js := JS.lit.

(* ================================================================== *)
(** * Data model *)
(* ================================================================== *)

(** ** Thrown values

    The handlers only ever read [e.message] of what they catch; it is
    [undefined] for values that are no [Error] (the [ProgressEvent] that
    [FileReader.onerror] passes to [reject]). *)
Record Exn := { message : option jsstring }.

Inductive Res (A : Type) :=
| Ok (a : A)
| Err (e : Exn).
Arguments Ok {A} a.
Arguments Err {A} e.

(** [e.message || d]. *)
Definition message_or (e : Exn) (d : jsstring) : jsstring :=
  match message e with
  | Some m => JS.or_else m d
  | None => d
  end.

(** ["Error: " + e.message]: string concatenation prints [undefined]. *)
Definition message_string (e : Exn) : jsstring :=
  match message e with
  | Some m => m
  | None => js "undefined"
  end.

(** ** Files

    A [Blob] is its bytes; [blob_readable] says whether reading it succeeds
    (a file removed or changed on disk after it was picked fails to read). *)
Record Blob := { blob_bytes : list byte; blob_readable : bool }.

Fixpoint lengthN {A} (l : list A) : N :=
  match l with
  | [] => 0
  | _ :: r => N.succ (lengthN r)
  end.

Fixpoint take {A} (n : N) (l : list A) : list A :=
  match l with
  | [] => []
  | x :: r => if N.eqb n 0 then [] else x :: take (N.pred n) r
  end.

(** [blob.size]. *)
Definition size (b : Blob) : N := lengthN (blob_bytes b).

(** [blob.slice(0, stop)]. *)
Definition slice (b : Blob) (stop : N) : Blob :=
  {| blob_bytes := take stop (blob_bytes b); blob_readable := blob_readable b |}.

(** [File]: a blob with a [name] and a MIME [type]. *)
Record File := { name : jsstring; type : jsstring; blob :> Blob }.

(** ** The platform *)
Class Browser := {
  (** [String.prototype.toLowerCase] *)
  toLowerCase : jsstring -> jsstring;
  (** the UTF-8 decoder behind [Blob.text()] *)
  utf8_decode : list byte -> jsstring;
  (** what a failed [Blob.text()] rejects with *)
  notReadable : Exn;
  (** [FileReader.result] after a successful [readAsDataURL] *)
  dataURL : File -> jsstring;
  (** [URL.createObjectURL] *)
  createObjectURL : File -> jsstring
}.

(** ** Values of the AI SDK ([@google/genai]) *)

Inductive Part :=
| TextPart (text : jsstring)
| InlineData (mimeType : jsstring) (data : option jsstring).

Inductive Role := user | model.

Record Content := { content_role : Role; content_parts : list Part }.

(** The argument of [ai.models.generateContentStream]. *)
Record GenerateContentParameters := {
  gen_model : jsstring;
  gen_contents : list Part;
  gen_systemInstruction : jsstring;
  gen_thinkingBudget : N
}.

(** A chat session, [Chat]: an opaque handle to the remote conversation;
    what this program knows of one is what [ai.chats.create] was given. *)
Record Chat := {
  chat_model : jsstring;
  chat_history : list Content;
  chat_systemInstruction : jsstring
}.

(** One fragment of a streamed response; [chunk.text] may be [undefined]. *)
Record Chunk := { chunk_text : option jsstring }.

(** A response stream, as the consumer sees it: the fragments it yields, in
    order, and then either the end ([None]) or a thrown error. *)
Record Stream := { chunks : list Chunk; failure : option Exn }.

(** ** Component state *)

Record HardwareContext := {
  frameType : jsstring;
  weight : jsstring;
  batteryCells : jsstring;
  batteryCapacity : jsstring;
  motorKv : jsstring;
  propSize : jsstring;
  escAmps : jsstring
}.

(** [keyof HardwareContext] *)
Inductive Field :=
| FrameType | Weight | BatteryCells | BatteryCapacity | MotorKv | PropSize | EscAmps.

Definition get (f : Field) (h : HardwareContext) : jsstring :=
  match f with
  | FrameType => frameType h
  | Weight => weight h
  | BatteryCells => batteryCells h
  | BatteryCapacity => batteryCapacity h
  | MotorKv => motorKv h
  | PropSize => propSize h
  | EscAmps => escAmps h
  end.

(** [{ ...prev, [field]: value }] *)
Definition with_field (prev : HardwareContext) (field : Field) (value : jsstring)
  : HardwareContext :=
  match field with
  | FrameType => {| frameType := value; weight := weight prev;
      batteryCells := batteryCells prev; batteryCapacity := batteryCapacity prev;
      motorKv := motorKv prev; propSize := propSize prev; escAmps := escAmps prev |}
  | Weight => {| frameType := frameType prev; weight := value;
      batteryCells := batteryCells prev; batteryCapacity := batteryCapacity prev;
      motorKv := motorKv prev; propSize := propSize prev; escAmps := escAmps prev |}
  | BatteryCells => {| frameType := frameType prev; weight := weight prev;
      batteryCells := value; batteryCapacity := batteryCapacity prev;
      motorKv := motorKv prev; propSize := propSize prev; escAmps := escAmps prev |}
  | BatteryCapacity => {| frameType := frameType prev; weight := weight prev;
      batteryCells := batteryCells prev; batteryCapacity := value;
      motorKv := motorKv prev; propSize := propSize prev; escAmps := escAmps prev |}
  | MotorKv => {| frameType := frameType prev; weight := weight prev;
      batteryCells := batteryCells prev; batteryCapacity := batteryCapacity prev;
      motorKv := value; propSize := propSize prev; escAmps := escAmps prev |}
  | PropSize => {| frameType := frameType prev; weight := weight prev;
      batteryCells := batteryCells prev; batteryCapacity := batteryCapacity prev;
      motorKv := motorKv prev; propSize := value; escAmps := escAmps prev |}
  | EscAmps => {| frameType := frameType prev; weight := weight prev;
      batteryCells := batteryCells prev; batteryCapacity := batteryCapacity prev;
      motorKv := motorKv prev; propSize := propSize prev; escAmps := value |}
  end.

Record Message := { role : Role; text : jsstring }.

(** The ten [useState] cells of [App]. *)
Record AppState := {
  hardware : HardwareContext;
  logData : jsstring;
  imageFile : option File;
  imagePreview : option jsstring;
  isAnalyzing : bool;
  analysisResult : option jsstring;
  chatSession : option Chat;
  chatHistory : list Message;
  chatInput : jsstring;
  errorMsg : jsstring
}.

(** The arguments of the [useState] calls. *)
Definition initialState : AppState := {|
  hardware := {| frameType := js "Quad X"; weight := []; batteryCells := [];
                 batteryCapacity := []; motorKv := []; propSize := [];
                 escAmps := [] |};
  logData := [];
  imageFile := None;
  imagePreview := None;
  isAnalyzing := false;
  analysisResult := None;
  chatSession := None;
  chatHistory := [];
  chatInput := [];
  errorMsg := []
|}.

(** ** State updates: the setters of the [useState] cells

    [setChatHistory] is called both with a value and with an updater
    [prev => ...]; an updater is applied to the state current when the update
    is processed, not to the one the handler saw. *)
Inductive Update :=
| setHardware (f : HardwareContext -> HardwareContext)
| setLogData (v : jsstring)
| setImageFile (v : option File)
| setImagePreview (v : option jsstring)
| setIsAnalyzing (v : bool)
| setAnalysisResult (v : option jsstring)
| setChatSession (v : option Chat)
| setChatHistory (v : list Message)
| updChatHistory (f : list Message -> list Message)
| setChatInput (v : jsstring)
| setErrorMsg (v : jsstring).

Definition update (u : Update) (s : AppState) : AppState :=
  let 'Build_AppState hw ld imf imp isa ar cs ch ci em := s in
  match u with
  | setHardware f => Build_AppState (f hw) ld imf imp isa ar cs ch ci em
  | setLogData v => Build_AppState hw v imf imp isa ar cs ch ci em
  | setImageFile v => Build_AppState hw ld v imp isa ar cs ch ci em
  | setImagePreview v => Build_AppState hw ld imf v isa ar cs ch ci em
  | setIsAnalyzing v => Build_AppState hw ld imf imp v ar cs ch ci em
  | setAnalysisResult v => Build_AppState hw ld imf imp isa v cs ch ci em
  | setChatSession v => Build_AppState hw ld imf imp isa ar v ch ci em
  | setChatHistory v => Build_AppState hw ld imf imp isa ar cs v ci em
  | updChatHistory f => Build_AppState hw ld imf imp isa ar cs (f ch) ci em
  | setChatInput v => Build_AppState hw ld imf imp isa ar cs ch v em
  | setErrorMsg v => Build_AppState hw ld imf imp isa ar cs ch ci v
  end.

(** ** Outgoing calls: what a handler asks of the platform and the SDK *)
Inductive Call :=
| blob_text (b : Blob)                            (* [b.text()] *)
| readAsDataURL (f : File)                        (* [reader.readAsDataURL(f)] *)
| URL_createObjectURL (f : File)
| new_GoogleGenAI
| generateContentStream (p : GenerateContentParameters)
| chats_create (c : Chat)
| sendMessageStream (c : Chat) (msg : jsstring)
| console_error (e : Exn)
| reset_file_input.                               (* [fileInputRef.current.value = ''] *)

(** A call to the remote model. *)
Definition is_remote (c : Call) : bool :=
  match c with
  | new_GoogleGenAI | generateContentStream _ | chats_create _
  | sendMessageStream _ _ => true
  | _ => false
  end.

(** ** Resumptions: how a suspended handler continues *)
Inductive Outcome :=
| Fulfilled                    (* an awaited promise resolved *)
| Rejected (e : Exn)           (* an awaited promise, or the stream, threw *)
| Yielded (c : Chunk)          (* [for await]: the stream gave a fragment *)
| Exhausted.                   (* [for await]: the stream is done *)

(** ** Events: one step of a handler *)
Inductive Event :=
| Upd (u : Update)
| Do (c : Call)
| Resumed (o : Outcome).

Definition Trace := list Event.

(** The state after a run of events. *)
Definition perform (s : AppState) (e : Event) : AppState :=
  match e with
  | Upd u => update u s
  | _ => s
  end.

Definition run (t : Trace) (s : AppState) : AppState := fold_left perform t s.

(* ================================================================== *)
(** * The trace monad *)
(* ================================================================== *)

(** A computation performs events and then returns or throws. *)
Definition M (A : Type) : Type := (Trace * Res A)%type.

Definition ret {A} (a : A) : M A := ([], Ok a).

Definition bind {A B} (m : M A) (k : A -> M B) : M B :=
  match m with
  | (t, Ok a) => let (t', r) := k a in (t ++ t', r)
  | (t, Err e) => (t, Err e)
  end.

Notation "x <- m ;; k" := (bind m (fun x => k))
  (at level 61, m at next level, right associativity).
Notation "m ;; k" := (bind m (fun _ => k))
  (at level 61, right associativity).

(** [try { m } catch (e) { h e }] *)
Definition try_catch {A} (m : M A) (h : Exn -> M A) : M A :=
  match m with
  | (t, Err e) => let (t', r) := h e in (t ++ t', r)
  | (t, Ok a) => (t, Ok a)
  end.

Definition emit (e : Event) : M unit := ([e], Ok tt).
Definition set (u : Update) : M unit := emit (Upd u).
Definition call (c : Call) : M unit := emit (Do c).

(** A synchronous call that returns or throws. *)
Definition call_sync {A} (c : Call) (r : Res A) : M A := ([Do c], r).

Definition settled {A} (r : Res A) : Outcome :=
  match r with
  | Ok _ => Fulfilled
  | Err e => Rejected e
  end.

(** [await c]: the call is made, the handler is suspended, and it resumes
    with the promise's result. *)
Definition await {A} (c : Call) (r : Res A) : M A :=
  ([Do c; Resumed (settled r)], r).

(** [for await (const chunk of stream) body]: the handler is suspended
    before every fragment and before the end of the stream.  [acc] is the
    local variable the body updates. *)
Fixpoint for_await {S} (body : S -> Chunk -> M S) (acc : S)
    (cs : list Chunk) (fail : option Exn) : M S :=
  match cs with
  | [] =>
      match fail with
      | None => emit (Resumed Exhausted) ;; ret acc
      | Some e => ([Resumed (Rejected e)], Err e)
      end
  | c :: rest =>
      emit (Resumed (Yielded c)) ;;
      acc' <- body acc c ;;
      for_await body acc' rest fail
  end.

(** What a computation did, and how it ended. *)
Definition trace {A} (m : M A) : Trace := fst m.
Definition result {A} (m : M A) : Res A := snd m.

(* ================================================================== *)
(** * Constants of the source *)
(* ================================================================== *)

(** [const MAX_SIZE = 5 * 1024 * 1024] *)
Definition MAX_SIZE : N := 5 * 1024 * 1024.

Definition truncation_notice : jsstring :=
  JS.nl :: JS.nl ::
  js "[...File truncated for browser performance. Analysis will use the first 5MB...]".

(** The text shown for a [.bin] file; it starts with U+26A0 U+FE0F. *)
Definition binary_notice : jsstring :=
  JS.lines [
    9888%N :: 65039%N :: js " BINARY FILE DETECTED (.BIN)";
    [];
    js "Browser-based analysis cannot parse raw ArduPilot binary logs directly.";
    [];
    js "RECOMMENDED ACTION:";
    js "1. Open Mission Planner or QGroundControl.";
    js "2. Convert the .BIN file to a .LOG (text) file.";
    js "3. Or export your Parameter List (.param).";
    js "4. Upload the text file here for analysis."
  ].

Definition read_error_msg : jsstring := js "Failed to read text file.".

Definition validation_error_msg : jsstring :=
  js "Please upload a log file, paste data, or provide an image.".

Definition analysis_failed_msg : jsstring := js "Analysis failed.".

Definition model_name : jsstring := js "gemini-3-flash-preview".

Definition systemInstruction : jsstring := JS.lines [
    [];
    js "        You are an expert ArduPilot Flight Engineer and Log Analyst. ";
    js "        Your goal is to analyze the provided drone configuration, log data (text), and visual data (screenshots of maps, telemetry graphs, or HUDs) to identify configuration errors, vibration issues, power inconsistencies, and tuning opportunities.";
    js "        ";
    js "        **Image Analysis Rules:**";
    js "        - If a MAP/FLIGHT PATH is provided: Look for straight lines vs wobbles. Analyze cornering overshoot. Identify if the path matches a tuned vehicle or loose navigation.";
    js "        - If a GRAPH is provided: Identify noise levels, tracking errors (Target vs Actual), or spikes in current/vibration.";
    js "        ";
    js "        **Report Structure:**";
    js "        1. **Health Check**: Quick status (Green/Yellow/Red) on critical systems.";
    js "        2. **Visual Analysis**: Insights derived from the uploaded image (if any).";
    js "        3. **Configuration Analysis**: Check MOT_SPIN_ARM, battery settings, notch filters against hardware.";
    js "        4. **Actionable Recommendations**: Specific parameter changes.";
    js "      "
  ].

(** The template literal [contextPrompt]. *)
Definition contextPrompt (hardware : HardwareContext) (logData : jsstring) : jsstring :=
  JS.lines [
    [];
    js "        **Hardware Context:**";
    js "        - Frame Type: " ++ frameType hardware;
    js "        - Weight: " ++ weight hardware ++ js " kg";
    js "        - Battery: " ++ batteryCells hardware ++ js "S "
       ++ batteryCapacity hardware ++ js "mAh";
    js "        - Motors: " ++ motorKv hardware ++ js " KV";
    js "        - Props: " ++ propSize hardware ++ js " inch";
    js "        - ESC: " ++ escAmps hardware ++ js " A";
    [];
    js "        **Log Data / Parameters:**";
    js "        " ++ JS.or_else logData (js "No text log provided.");
    [];
    js "        Please analyze this configuration and any attached visual data.";
    js "      "
  ].

(* ================================================================== *)
(** * The event handlers of [App] *)
(* ================================================================== *)

Definition isSome {A} (o : option A) : bool :=
  match o with Some _ => true | None => false end.

(** [newHistory[newHistory.length - 1] = x] on a copy of [prev].  On an empty
    array the index is [-1], which names no element: the elements stay as
    they are. *)
Definition assign_last {A} (prev : list A) (x : A) : list A :=
  match length prev with
  | O => prev
  | S n => firstn n prev ++ [x]
  end.

(** What the SDK does during one [startAnalysis]: whether
    [new GoogleGenAI] returns, and what [generateContentStream] resolves to. *)
Record Remote := { client : Res unit; generated : Res Stream }.

Section Handlers.

Context {B : Browser}.

(** [fileToBase64]: [onload] resolves with [result.split(',')[1]],
    [onerror] rejects with the event it is given. *)
Definition fileToBase64 (file : File) : M (option jsstring) :=
  await (readAsDataURL file)
    (if blob_readable file
     then Ok (nth_error (JS.split 44%N (dataURL file)) 1)
     else Err {| message := None |}).

(** [await b.text()] *)
Definition read_text (b : Blob) : M jsstring :=
  await (blob_text b)
    (if blob_readable b then Ok (utf8_decode (blob_bytes b))
     else Err notReadable).

Definition handleInputChange (field : Field) (value : jsstring) : M unit :=
  set (setHardware (fun prev => with_field prev field value)).

Definition is_image_name (lower : jsstring) : bool :=
  JS.endsWith lower (js ".jpg") || JS.endsWith lower (js ".jpeg")
  || JS.endsWith lower (js ".png") || JS.endsWith lower (js ".webp").

(** [files] is [e.target.files[0]] when there is one. *)
Definition handleFileSelect (files : option File) : M unit :=
  match files with
  | None => ret tt
  | Some file =>
      let lower := toLowerCase (name file) in
      set (setImageFile None) ;;
      set (setImagePreview None) ;;
      set (setErrorMsg []) ;;
      if is_image_name lower then
        set (setImageFile (Some file)) ;;
        call (URL_createObjectURL file) ;;
        set (setImagePreview (Some (createObjectURL file)))
      else if JS.endsWith lower (js ".bin") then
        set (setLogData binary_notice)
      else
        try_catch
          (text <- (if (MAX_SIZE <? size file)%N
                    then text <- read_text (slice file MAX_SIZE) ;;
                         ret (text ++ truncation_notice)
                    else read_text file) ;;
           set (setLogData text))
          (fun err =>
             call (console_error err) ;;
             set (setErrorMsg read_error_msg))
  end.

Definition clearImage : M unit :=
  set (setImageFile None) ;;
  set (setImagePreview None) ;;
  call reset_file_input.

(** The body of the [for await] loop of [startAnalysis]; [fullResponse]
    is the local it appends to. *)
Definition analysis_chunk (fullResponse : jsstring) (chunk : Chunk) : M jsstring :=
  match chunk_text chunk with
  | Some t =>
      if JS.truthy t then
        let fullResponse := fullResponse ++ t in
        set (setAnalysisResult (Some fullResponse)) ;;
        ret fullResponse
      else ret fullResponse
  | None => ret fullResponse
  end.

(** [s] is the state of the render whose closure the handler is.
    [ai.chats.create] makes the session object from its arguments, on the
    spot: it is a call that returns. *)
Definition startAnalysis (s : AppState) (sdk : Remote) : M unit :=
  if negb (JS.truthy (JS.trim (logData s))) && negb (isSome (imageFile s)) then
    set (setErrorMsg validation_error_msg)
  else
    set (setErrorMsg []) ;;
    set (setIsAnalyzing true) ;;
    set (setAnalysisResult None) ;;
    set (setChatHistory []) ;;
    set (setChatSession None) ;;
    try_catch
      (call_sync new_GoogleGenAI (client sdk) ;;
       let prompt := TextPart (contextPrompt (hardware s) (logData s)) in
       parts <- match imageFile s with
                | Some imageFile =>
                    base64Data <- fileToBase64 imageFile ;;
                    ret [prompt; InlineData (type imageFile) base64Data]
                | None => ret [prompt]
                end ;;
       resultStream <-
         await (generateContentStream
                  {| gen_model := model_name;
                     gen_contents := parts;
                     gen_systemInstruction := systemInstruction;
                     gen_thinkingBudget := 1024 |})
               (generated sdk) ;;
       fullResponse <-
         for_await analysis_chunk [] (chunks resultStream) (failure resultStream) ;;
       set (setIsAnalyzing false) ;;
       let initialHistory :=
         [ {| content_role := user; content_parts := parts |};
           {| content_role := model; content_parts := [TextPart fullResponse] |} ] in
       let chat := {| chat_model := model_name;
                      chat_history := initialHistory;
                      chat_systemInstruction := systemInstruction |} in
       call (chats_create chat) ;;
       set (setChatSession (Some chat)))
      (fun e =>
         call (console_error e) ;;
         set (setErrorMsg (message_or e analysis_failed_msg)) ;;
         set (setIsAnalyzing false)).

(** The body of the [for await] loop of [sendChatMessage]. *)
Definition chat_chunk (modelMsg : jsstring) (chunk : Chunk) : M jsstring :=
  match chunk_text chunk with
  | Some t =>
      if JS.truthy t then
        let modelMsg := modelMsg ++ t in
        set (updChatHistory
               (fun prev => assign_last prev {| role := model; text := modelMsg |})) ;;
        ret modelMsg
      else ret modelMsg
  | None => ret modelMsg
  end.

(** [response] is what [chatSession.sendMessageStream] resolves to. *)
Definition sendChatMessage (s : AppState) (response : Res Stream) : M unit :=
  if negb (JS.truthy (JS.trim (chatInput s))) || negb (isSome (chatSession s))
  then ret tt
  else
    match chatSession s with
    | None => ret tt            (* excluded by the test above *)
    | Some chatSession =>
        let userMsg := chatInput s in
        set (setChatInput []) ;;
        set (updChatHistory (fun prev => prev ++ [{| role := user; text := userMsg |}])) ;;
        try_catch
          (resultStream <- await (sendMessageStream chatSession userMsg) response ;;
           set (updChatHistory (fun prev => prev ++ [{| role := model; text := [] |}])) ;;
           _ <- for_await chat_chunk [] (chunks resultStream) (failure resultStream) ;;
           ret tt)
          (fun e =>
             set (updChatHistory
                    (fun prev => prev ++ [{| role := model;
                                             text := js "Error: " ++ message_string e |}])))
    end.

End Handlers.

(* ================================================================== *)
(** * The report renderer *)
(* ================================================================== *)

(** The elements the renderer produces, with their text; keys and class
    names are left out. *)
Inductive Block :=
| h3 (children : jsstring)
| h4 (children : jsstring)
| li (children : jsstring)
| p (children : jsstring).

(** The callback of [analysisResult.split('\n').map]. *)
Definition renderLine (line : jsstring) : Block :=
  if JS.startsWith line (js "###") then h3 (JS.replace (js "###") [] line)
  else if JS.startsWith line (js "**") then h4 (JS.replaceAll (js "**") [] line)
  else if JS.startsWith line (js "-") then li (JS.substring 1 line)
  else p line.

Definition renderLines (analysisResult : jsstring) : list Block :=
  map renderLine (JS.split JS.nl analysisResult).

Inductive ReportView :=
| Welcome                          (* "Upload flight logs ... to begin analysis." *)
| Skeleton                         (* the pulsing placeholder *)
| Report (blocks : list Block).

(** Truthiness of [analysisResult : string | null]. *)
Definition has_text (r : option jsstring) : bool :=
  match r with Some t => JS.truthy t | None => false end.

Definition renderReport (s : AppState) : ReportView :=
  if negb (has_text (analysisResult s)) && negb (isAnalyzing s) then Welcome
  else match analysisResult s with
       | Some t => if JS.truthy t then Report (renderLines t) else Skeleton
       | None => Skeleton
       end.

(* ================================================================== *)
(** * The runtime: handlers interleaved at their suspension points *)
(* ================================================================== *)

(** What the user can do, with what the outside world answers. *)
Inductive Action :=
| InputChange (field : Field) (value : jsstring)  (* a hardware input's [onChange] *)
| LogEdit (value : jsstring)                      (* the textarea's [onChange] *)
| FileSelect (files : option File)                (* the file input's [onChange] *)
| ClearImage                                      (* the preview's X button *)
| StartAnalysis (sdk : Remote)                    (* the Analyze button *)
| ChatEdit (value : jsstring)                     (* the chat input's [onChange] *)
| SendChat (response : Res Stream).               (* the chat form's [onSubmit] *)

(** Whether the handler is [startAnalysis]. *)
Definition is_analysis (a : Action) : bool :=
  match a with StartAnalysis _ => true | _ => false end.

(** The Analyze button is [disabled={isAnalyzing}]. *)
Definition enabled (a : Action) (s : AppState) : bool :=
  match a with
  | StartAnalysis _ => negb (isAnalyzing s)
  | _ => true
  end.

(** The part of a trace that runs before the handler is next suspended, and
    what is left from that suspension on. *)
Fixpoint sync_prefix (t : Trace) : Trace :=
  match t with
  | [] => []
  | Resumed _ :: _ => []
  | e :: r => e :: sync_prefix r
  end.

Fixpoint after_sync (t : Trace) : Trace :=
  match t with
  | [] => []
  | Resumed _ :: _ => t
  | _ :: r => after_sync r
  end.

(** A suspended handler: what it will still do, from its resumption on. *)
Record Task := { analysis : bool; rest : Trace }.

Definition suspended (an : bool) (t : Trace) : list Task :=
  match after_sync t with
  | [] => []
  | r => [{| analysis := an; rest := r |}]
  end.

(** [completed] records whether the most recent analysis that got past
    validation has seen its stream run to the end: it is reset when
    [startAnalysis] sets [isAnalyzing], and set when the [for await] loop of
    [startAnalysis] finds the stream exhausted. *)
Definition track (an : bool) (d : bool) (e : Event) : bool :=
  if an then
    match e with
    | Upd (setIsAnalyzing true) => false
    | Resumed Exhausted => true
    | _ => d
    end
  else d.

Record Config := { ui : AppState; pool : list Task; completed : bool }.

Definition advance (an : bool) (seg : Trace) (c : Config) (pool' : list Task) : Config :=
  {| ui := run seg (ui c);
     pool := pool';
     completed := fold_left (track an) seg (completed c) |}.

Section Runtime.

Context {B : Browser}.

Definition handler (a : Action) (s : AppState) : M unit :=
  match a with
  | InputChange field value => handleInputChange field value
  | LogEdit value => set (setLogData value)
  | FileSelect files => handleFileSelect files
  | ClearImage => clearImage
  | StartAnalysis sdk => startAnalysis s sdk
  | ChatEdit value => set (setChatInput value)
  | SendChat response => sendChatMessage s response
  end.

(** The configuration after the first turn of a handler: it has run, on
    the state it was called in, up to its first suspension. *)
Definition launched (a : Action) (c : Config) : Config :=
  advance (is_analysis a) (sync_prefix (trace (handler a (ui c)))) c
    (pool c ++ suspended (is_analysis a) (trace (handler a (ui c)))).

(** One turn of the event loop: either a user action starts a handler,
    which runs up to its first suspension, or a suspended handler, any of
    them, is resumed and runs up to its next one.  The updates of a turn are
    applied together: no state between two of them is ever rendered, and a
    handler started later reads the state as the turns before it left it. *)
Inductive turn : Config -> Config -> Prop :=
| launch (c : Config) (a : Action) :
    enabled a (ui c) = true ->
    turn c (launched a c)
| resume (c : Config) (before after : list Task) (an : bool) (e : Event) (t : Trace) :
    pool c = before ++ {| analysis := an; rest := e :: t |} :: after ->
    turn c (advance an (e :: sync_prefix t) c
              (before ++ suspended an t ++ after)).

Inductive reachable : Config -> Prop :=
| reachable_init :
    reachable {| ui := initialState; pool := []; completed := false |}
| reachable_turn (c c' : Config) :
    reachable c -> turn c c' -> reachable c'.

End Runtime.

(* ================================================================== *)
(** * Observations on traces *)
(* ================================================================== *)

(** The values a trace writes to [analysisResult] and to [chatSession], in
    order. *)
Definition analysisResult_writes (t : Trace) : list (option jsstring) :=
  flat_map (fun e => match e with Upd (setAnalysisResult v) => [v] | _ => [] end) t.

Definition chatSession_writes (t : Trace) : list (option Chat) :=
  flat_map (fun e => match e with Upd (setChatSession v) => [v] | _ => [] end) t.

(** The calls a trace makes. *)
Definition calls (t : Trace) : list Call :=
  flat_map (fun e => match e with Do c => [c] | _ => [] end) t.

Definition remote_calls (t : Trace) : list Call := filter is_remote (calls t).

(** Reads of a file's content. *)
Definition is_read (c : Call) : bool :=
  match c with blob_text _ | readAsDataURL _ => true | _ => false end.

(** A trace cut at its suspension points: the first piece runs when the
    handler is called, each later piece when it is resumed. *)
Fixpoint segments (t : Trace) : list Trace :=
  match t with
  | [] => [[]]
  | e :: r =>
      match segments r with
      | seg :: segs =>
          match e with
          | Resumed _ => [] :: (e :: seg) :: segs
          | _ => (e :: seg) :: segs
          end
      | [] => [[e]]
      end
  end.

Fixpoint states_after (segs : list Trace) (s : AppState) : list AppState :=
  match segs with
  | [] => []
  | seg :: r => run seg s :: states_after r (run seg s)
  end.

(** The states that can be seen while a handler runs from [s] with nothing
    else going on: the state at each of its suspensions and at its end. *)
Definition turn_states (t : Trace) (s : AppState) : list AppState :=
  states_after (segments t) s.

(** The text deltas of a stream that the loops act on: those that are
    neither absent nor empty. *)
Definition deltas (cs : list Chunk) : list jsstring :=
  flat_map (fun c => match chunk_text c with
                     | Some t => if JS.truthy t then [t] else []
                     | None => []
                     end) cs.

(** The successive values of an accumulator that starts at [acc] and is
    appended each of [ds] in turn. *)
Fixpoint running (acc : jsstring) (ds : list jsstring) : list jsstring :=
  match ds with
  | [] => []
  | d :: r => (acc ++ d) :: running (acc ++ d) r
  end.

(** Whether [**] occurs in a string. *)
Fixpoint has_double_star (s : jsstring) : bool :=
  match s with
  | [] => false
  | a :: r =>
      (N.eqb a 42 && match r with b :: _ => N.eqb b 42 | [] => false end)
      || has_double_star r
  end.

Definition field_eqb (f g : Field) : bool :=
  match f, g with
  | FrameType, FrameType | Weight, Weight | BatteryCells, BatteryCells
  | BatteryCapacity, BatteryCapacity | MotorKv, MotorKv | PropSize, PropSize
  | EscAmps, EscAmps => true
  | _, _ => false
  end.

(* ================================================================== *)
(** * Vocabulary of the statements *)
(* ================================================================== *)

(** ** Runs of [startAnalysis] *)

(** A string that is empty or made of white space only. *)
Definition blank (s : jsstring) : bool := forallb JS.isWhiteSpace s.

(** The test [startAnalysis] starts with lets the invocation through:
    there is log text that is not blank, or an image. *)
Definition passes_validation (s : AppState) : Prop :=
  blank (logData s) = false \/ imageFile s <> None.

(** The request [startAnalysis] sends for [parts], and the session it
    creates from [parts] and the full response. *)
Definition request (parts : list Part) : GenerateContentParameters :=
  {| gen_model := model_name; gen_contents := parts;
     gen_systemInstruction := systemInstruction; gen_thinkingBudget := 1024 |}.

Definition session (parts : list Part) (fullResponse : jsstring) : Chat :=
  {| chat_model := model_name;
     chat_history :=
       [ {| content_role := user; content_parts := parts |};
         {| content_role := model; content_parts := [TextPart fullResponse] |} ];
     chat_systemInstruction := systemInstruction |}.

(** The pieces of a run of [startAnalysis]: the resets it starts with, the
    catch block, and what follows the stream. *)
Definition resets : Trace :=
  [Upd (setErrorMsg []); Upd (setIsAnalyzing true); Upd (setAnalysisResult None);
   Upd (setChatHistory []); Upd (setChatSession None)].

Definition caught (e : Exn) : Trace :=
  [Do (console_error e); Upd (setErrorMsg (message_or e analysis_failed_msg));
   Upd (setIsAnalyzing false)].

Definition concluded (parts : list Part) (fullResponse : jsstring) : Trace :=
  [Upd (setIsAnalyzing false); Do (chats_create (session parts fullResponse));
   Upd (setChatSession (Some (session parts fullResponse)))].

Definition streaming (parts : list Part) (st : Stream) : Trace :=
  trace (for_await analysis_chunk [] (chunks st) (failure st))
  ++ match result (for_await analysis_chunk [] (chunks st) (failure st)) with
     | Ok fullResponse => concluded parts fullResponse
     | Err e => caught e
     end.

Definition generating (sdk : Remote) (parts : list Part) : Trace :=
  Do (generateContentStream (request parts))
  :: match generated sdk with
     | Ok st => Resumed Fulfilled :: streaming parts st
     | Err e => Resumed (Rejected e) :: caught e
     end.

Definition prompt (s : AppState) : Part :=
  TextPart (contextPrompt (hardware s) (logData s)).

(** The turn of the run in which a fragment arrives, when the text
    accumulated before it is [sofar]: the run is resumed with the fragment
    and, if the fragment has a text that is not empty, it updates
    [analysisResult] once, to the text so far with the fragment's text
    appended; it does nothing else before it is suspended again. *)
Definition fragment_turn (sofar : jsstring) (chunk : Chunk) : Trace :=
  Resumed (Yielded chunk)
  :: match chunk_text chunk with
     | Some t =>
         if JS.truthy t then [Upd (setAnalysisResult (Some (sofar ++ t)))] else []
     | None => []
     end.

(** The fragments a trace is resumed with, in order. *)
Definition arrivals (t : Trace) : list Chunk :=
  flat_map (fun e => match e with Resumed (Yielded c) => [c] | _ => [] end) t.

(** The claim of C7 as the spec words it: as many updates of
    [analysisResult] with streamed text as the stream has fragments. *)
Definition one_update_per_fragment (t : Trace) (st : Stream) : Prop :=
  length (filter isSome (analysisResult_writes t)) = length (chunks st).

(** Whether a run of [startAnalysis] from [s] gets to the end of its try
    block: the client is built, the attachment is read, the stream opens and
    it ends without throwing. *)
Definition succeeds (s : AppState) (sdk : Remote) : bool :=
  match client sdk, generated sdk with
  | Ok _, Ok st =>
      match failure st with None => true | Some _ => false end
      && match imageFile s with Some f => blob_readable f | None => true end
  | _, _ => false
  end.


(** ** The session invariant *)

(** What the invariant looks at: whether there is a session, whether an
    analysis is marked as running, and whether the latest one completed. *)
Record Abs := { has_session : bool; analyzing : bool; done : bool }.

Definition abs_of (s : AppState) (d : bool) : Abs :=
  {| has_session := isSome (chatSession s); analyzing := isAnalyzing s; done := d |}.

Definition abstract (c : Config) : Abs := abs_of (ui c) (completed c).

Definition abs_event (an : bool) (a : Abs) (e : Event) : Abs :=
  {| has_session := match e with
                    | Upd (setChatSession v) => isSome v
                    | _ => has_session a
                    end;
     analyzing := match e with
                  | Upd (setIsAnalyzing v) => v
                  | _ => analyzing a
                  end;
     done := track an (done a) e |}.

Definition abs_run (an : bool) (t : Trace) (a : Abs) : Abs :=
  fold_left (abs_event an) t a.

(** An analysis is under way: no session, the flag set, not completed. *)
Definition pending : Abs := {| has_session := false; analyzing := true; done := false |}.

Definition is_pending (a : Abs) : bool :=
  negb (has_session a) && analyzing a && negb (done a).

(** No analysis is under way, and there is a session exactly if the latest
    one completed. *)
Definition is_settled (a : Abs) : bool :=
  negb (analyzing a) && Bool.eqb (has_session a) (done a).

(** What is left of a run of [startAnalysis] keeps the state pending at
    each of its suspensions and leaves it settled at its end. *)
Fixpoint tail_good (a : Abs) (t : Trace) : bool :=
  match t with
  | [] => is_settled a
  | e :: r =>
      match e with Resumed _ => is_pending a | _ => true end
      && tail_good (abs_event true a e) r
  end.

(** An event that touches neither the session nor the flag. *)
Definition neutral (e : Event) : bool :=
  match e with
  | Upd (setChatSession _) | Upd (setIsAnalyzing _) => false
  | _ => true
  end.

Definition task_ok (k : Task) : bool :=
  if analysis k then tail_good pending (rest k) else forallb neutral (rest k).

Definition inv (c : Config) : Prop :=
  has_session (abstract c) = done (abstract c)
  /\ (analyzing (abstract c) = true -> abstract c = pending)
  /\ Forall (fun k => task_ok k = true) (pool c)
  /\ length (filter analysis (pool c)) = if analyzing (abstract c) then 1 else 0.

(** The text a stream accumulates to. *)
Definition full_text (sdk : Remote) : jsstring :=
  match generated sdk with
  | Ok st => fold_left (@app JS.char) (deltas (chunks st)) []
  | Err _ => []
  end.

Definition is_exhausted (e : Event) : bool :=
  match e with Resumed Exhausted => true | _ => false end.

(** Resuming the handler that has been suspended the longest: the
    schedule the sample runs below follow. *)
Definition resume_first (c : Config) : Config :=
  match pool c with
  | {| analysis := an; rest := e :: t |} :: after =>
      advance an (e :: sync_prefix t) c (suspended an t ++ after)
  | _ => c
  end.

Section Vocabulary.

Context {B : Browser}.

(** The file is neither an image nor a [.bin] file by its name. *)
Definition text_like (file : File) : Prop :=
  is_image_name (toLowerCase (name file)) = false
  /\ JS.endsWith (toLowerCase (name file)) (js ".bin") = false.

(** The claim of C8 as the spec words it: after a failed read the error
    is shown and every other cell is as it was before the selection. *)
Definition failed_read_changes_only_error (s : AppState) (file : File) : Prop :=
  let s' := run (trace (handleFileSelect (Some file))) s in
  errorMsg s' = read_error_msg
  /\ hardware s' = hardware s /\ logData s' = logData s
  /\ imageFile s' = imageFile s /\ imagePreview s' = imagePreview s
  /\ isAnalyzing s' = isAnalyzing s /\ analysisResult s' = analysisResult s
  /\ chatSession s' = chatSession s /\ chatHistory s' = chatHistory s
  /\ chatInput s' = chatInput s.

(** The parts sent when the attachment, if there is one, can be read. *)
Definition parts_of (s : AppState) : list Part :=
  match imageFile s with
  | Some f => [prompt s; InlineData (type f) (nth_error (JS.split 44%N (dataURL f)) 1)]
  | None => [prompt s]
  end.

(** The attachment, if there is one, can be read. *)
Definition attachment_readable (s : AppState) : Prop :=
  forall f, imageFile s = Some f -> blob_readable f = true.

(** The try block of [startAnalysis], with the catch block when it
    throws. *)
Definition attempt (s : AppState) (sdk : Remote) : Trace :=
  Do new_GoogleGenAI
  :: match client sdk with
     | Err e => caught e
     | Ok _ =>
         match imageFile s with
         | None => generating sdk (parts_of s)
         | Some f =>
             Do (readAsDataURL f)
             :: if blob_readable f
                then Resumed Fulfilled :: generating sdk (parts_of s)
                else Resumed (Rejected {| message := None |})
                     :: caught {| message := None |}
         end
     end.

End Vocabulary.

(* ================================================================== *)
(** * A small browser to run the handlers on

    ASCII only: it lower-cases A-Z, decodes a byte as the code unit of the
    same number, and builds data URLs with a real base64 payload. *)
(* ================================================================== *)

Module Sample.

Definition lower (c : JS.char) : JS.char :=
  if ((65 <=? c) && (c <=? 90))%N then (c + 32)%N else c.

Definition digit (n : N) : JS.char :=
  nth (N.to_nat n)
    (js "ABCDEFGHIJKLMNOPQRSTUVWXYZabcdefghijklmnopqrstuvwxyz0123456789+/") 61%N.

Fixpoint base64 (l : list N) : jsstring :=
  match l with
  | [] => []
  | [a] =>
      [digit (a / 4); digit (a mod 4 * 16); 61; 61]%N
  | [a; b] =>
      [digit (a / 4); digit (a mod 4 * 16 + b / 16); digit (b mod 16 * 4); 61]%N
  | a :: b :: c :: r =>
      [digit (a / 4); digit (a mod 4 * 16 + b / 16);
       digit (b mod 16 * 4 + c / 64); digit (c mod 64)]%N ++ base64 r
  end.

#[export] Instance browser : Browser := {|
  toLowerCase := map lower;
  utf8_decode := map Byte.to_N;
  notReadable := {| message := Some (js "The file could not be read.") |};
  dataURL := fun f =>
    js "data:" ++ type f ++ js ";base64," ++ base64 (map Byte.to_N (blob_bytes f));
  createObjectURL := fun f => js "blob:" ++ name f
|}.

Definition ascii (s : string) : list byte :=
  map byte_of_ascii (list_ascii_of_string s).

Definition text_file (n : string) (content : string) : File :=
  {| name := js n; type := js "text/plain";
     blob := {| blob_bytes := ascii content; blob_readable := true |} |}.

(** A log file one byte over the ceiling. *)
Definition big_file : File :=
  {| name := js "big.log"; type := js "text/plain";
     blob := {| blob_bytes := repeat x30 (N.to_nat (MAX_SIZE + 1));
                blob_readable := true |} |}.

Definition unreadable (f : File) : File :=
  {| name := name f; type := type f;
     blob := {| blob_bytes := blob_bytes f; blob_readable := false |} |}.

Definition image_file (n : string) : File :=
  {| name := js n; type := js "image/png";
     blob := {| blob_bytes := ascii "Man"; blob_readable := true |} |}.

Definition fragment (s : string) : Chunk := {| chunk_text := Some (js s) |}.

Definition stream_of (l : list Chunk) : Stream := {| chunks := l; failure := None |}.

Definition sdk_ok (l : list Chunk) : Remote :=
  {| client := Ok tt; generated := Ok (stream_of l) |}.

End Sample.

(** A state with a pasted log, and one with a screenshot attached. *)
Definition pasted : AppState := run [Upd (setLogData (js "ATT.Roll 3"))] initialState.

Definition attached : AppState :=
  run (trace (handleFileSelect (B := Sample.browser)
                (Some (Sample.image_file "map.png")))) initialState.

(** The user types "test" after an analysis of the pasted log. *)
Definition chatting : AppState :=
  run [Upd (setChatInput (js "test"))]
    (run (trace (startAnalysis (B := Sample.browser) pasted
                   (Sample.sdk_ok [Sample.fragment "Report"]))) pasted).

(** The user pastes a log, starts an analysis, and the stream delivers one
    fragment and ends. *)
Definition analysis_started : Config :=
  launched (B := Sample.browser) (StartAnalysis (Sample.sdk_ok [Sample.fragment "Report"]))
    (launched (B := Sample.browser) (LogEdit (js "ATT.Roll 3"))
       {| ui := initialState; pool := []; completed := false |}).

Definition analysis_completed : Config :=
  resume_first (resume_first (resume_first analysis_started)).

(* ================================================================== *)
(** * Vocabulary of the further properties *)
(* ================================================================== *)

(** An event that leaves the two attachment cells alone. *)
Definition image_neutral (e : Event) : bool :=
  match e with
  | Upd (setImageFile _) | Upd (setImagePreview _) => false
  | _ => true
  end.

(** An event that does not write the empty string to [analysisResult]. *)
Definition report_write_ok (e : Event) : bool :=
  match e with
  | Upd (setAnalysisResult (Some [])) => false
  | _ => true
  end.

(** An event that changes no cell, except perhaps [analysisResult]. *)
Definition report_only (e : Event) : bool :=
  match e with
  | Upd (setAnalysisResult _) | Do _ | Resumed _ => true
  | Upd _ => false
  end.

(** The text a rendered element shows. *)
Definition shown (b : Block) : jsstring :=
  match b with h3 t | h4 t | li t | p t => t end.

(** The characters the renderer reads as markers: [#], [*] and [-]. *)
Definition is_marker (c : JS.char) : bool :=
  N.eqb c 35 || N.eqb c 42 || N.eqb c 45.

(** A string without its marker characters. *)
Definition unmarked (s : jsstring) : jsstring :=
  filter (fun c => negb (is_marker c)) s.

(** [taken_out t l]: the text [t] is the text [l] with some of its marker
    characters taken out; every other character of [l] is in [t], in its
    place, and [t] has no character that is not in [l]. *)
Inductive taken_out : jsstring -> jsstring -> Prop :=
| taken_out_nil : taken_out [] []
| taken_out_keep (c : JS.char) (t l : jsstring) :
    taken_out t l -> taken_out (c :: t) (c :: l)
| taken_out_drop (c : JS.char) (t l : jsstring) :
    is_marker c = true -> taken_out t l -> taken_out t (c :: l).

(** The number of line breaks of a string. *)
Definition line_breaks (s : jsstring) : nat :=
  length (filter (N.eqb JS.nl) s).

(** The text the fragments of a stream add up to. *)
Definition accumulated (cs : list Chunk) : jsstring :=
  fold_left (@app JS.char) (deltas cs) [].


(** The message a failure of the chat stream leaves in the history. *)
Definition error_entry (e : Exn) : Message :=
  {| role := model; text := js "Error: " ++ message_string e |}.

(** The runs of [startAnalysis] that get to their request: the client is
    built and the attachment, if there is one, is read. *)
Definition requests (s : AppState) (sdk : Remote) : bool :=
  match client sdk with
  | Ok _ => match imageFile s with Some f => blob_readable f | None => true end
  | Err _ => false
  end.

(** An event that leaves the attachment alone and writes no empty
    report: all that [startAnalysis], [sendChatMessage] and the edits of
    the fields ever do. *)
Definition harmless (e : Event) : bool := image_neutral e && report_write_ok e.

(** Whether a user action selects a file or clears the attachment. *)
Definition on_attachment (a : Action) : bool :=
  match a with FileSelect _ | ClearImage => true | _ => false end.

Section FurtherVocabulary.

Context {B : Browser}.

(** The preview is the object URL of the attached file, and there is none
    when no file is attached. *)
Definition image_paired (s : AppState) : Prop :=
  imagePreview s = option_map createObjectURL (imageFile s).

(** Two chat messages in flight at once: the user sends the message
    typed, types [m2] and sends it before any answer has come; the streams
    answer with one fragment each, [x] and [y]; the two handlers are then
    resumed in turn, the first one first, until both are done. *)
Definition resume_second (c : Config) : Config :=
  match pool c with
  | k :: {| analysis := an; rest := e :: t |} :: after =>
      advance an (e :: sync_prefix t) c (k :: suspended an t ++ after)
  | _ => c
  end.

Definition answered (t : jsstring) : Stream :=
  {| chunks := [{| chunk_text := Some t |}]; failure := None |}.

Definition two_chats_sent (m2 x y : jsstring) (c : Config) : Config :=
  launched (SendChat (Ok (answered y)))
    (launched (ChatEdit m2) (launched (SendChat (Ok (answered x))) c)).

Definition two_chats (m2 x y : jsstring) (c : Config) : Config :=
  resume_first (resume_first (resume_second (resume_first (resume_second
    (resume_first (two_chats_sent m2 x y c)))))).

(** The same two messages, the first handler resumed to its end before
    the second. *)
Definition two_chats_in_order (m2 x y : jsstring) (c : Config) : Config :=
  resume_first (resume_first (resume_first (resume_first (resume_first
    (resume_first (two_chats_sent m2 x y c)))))).

End FurtherVocabulary.

(** The user types a question after the sample analysis has completed. *)
Definition question_typed : Config :=
  launched (B := Sample.browser) (ChatEdit (js "test")) analysis_completed.

(** The pieces of a run of [sendChatMessage]: an entry is appended to
    the history; the model's entry starts empty; what the history gains
    from a stream in the end. *)
Definition push (m : Message) : Update :=
  updChatHistory (fun prev => prev ++ [m]).

Definition placeholder : Message := {| role := model; text := [] |}.

Definition answer (st : Stream) : list Message :=
  {| role := model; text := accumulated (chunks st) |}
  :: match failure st with Some e => [error_entry e] | None => [] end.

(** What a run of [sendChatMessage] has still to do when it is
    suspended on the call that sends the message, if the stream opens. *)
Definition chat_rest (st : Stream) : Trace :=
  Resumed Fulfilled
  :: Upd (push placeholder)
  :: trace (for_await chat_chunk [] (chunks st) (failure st))
  ++ match failure st with
     | Some e => [Upd (push (error_entry e))]
     | None => []
     end.

(** The user attaches an image and nothing else has happened. *)
Definition image_attached : Config :=
  launched (B := Sample.browser) (FileSelect (Some (Sample.image_file "map.png")))
    {| ui := initialState; pool := []; completed := false |}.

(* ================================================================== *)
(** * Facts about the string functions *)
(* ================================================================== *)

Module JSFacts.

Lemma startsWith_app (p r : jsstring) : JS.startsWith (p ++ r) p = true.
Proof.
  induction p as [|c p IH]; simpl; [now destruct r|].
  now rewrite N.eqb_refl, IH.
Qed.

Lemma skipn_app_length (p r : jsstring) : skipn (length p) (p ++ r) = r.
Proof. induction p; simpl; auto. Qed.

(** Replacing a prefix removes that prefix and touches nothing else. *)
Lemma replace_eq (pat rep s : jsstring) :
  JS.replace pat rep s =
  if JS.startsWith s pat then rep ++ skipn (length pat) s
  else match s with
       | [] => []
       | c :: r => c :: JS.replace pat rep r
       end.
Proof. destruct s; reflexivity. Qed.

Lemma replace_prefix (p rep r : jsstring) :
  JS.replace p rep (p ++ r) = rep ++ r.
Proof. now rewrite replace_eq, startsWith_app, skipn_app_length. Qed.

Lemma split_nonempty (sep : JS.char) (s : jsstring) : JS.split sep s <> [].
Proof.
  destruct s as [|c r]; simpl; [discriminate|].
  destruct (N.eqb c sep); [discriminate|].
  destruct (JS.split sep r); discriminate.
Qed.

(** Splitting distributes over a separator: the pieces before it and
    the pieces after it. *)
Lemma split_app (sep : JS.char) (a b : jsstring) :
  JS.split sep (a ++ sep :: b) = JS.split sep a ++ JS.split sep b.
Proof.
  induction a as [|c a IH]; simpl.
  - now rewrite N.eqb_refl.
  - destruct (N.eqb c sep); [now rewrite IH|].
    rewrite IH.
    destruct (JS.split sep a) eqn:E; [now apply split_nonempty in E|].
    reflexivity.
Qed.

(** A string without the separator is its own single piece. *)
Lemma split_one (sep : JS.char) (s : jsstring) :
  ~ In sep s -> JS.split sep s = [s].
Proof.
  induction s as [|c r IH]; simpl; intros H; [reflexivity|].
  destruct (N.eqb_spec c sep) as [->|_]; [exfalso; auto|].
  rewrite IH by tauto. reflexivity.
Qed.

Lemma trimStart_blank (s : jsstring) : blank (JS.trimStart s) = blank s.
Proof.
  induction s as [|c r IH]; [reflexivity|]. cbn [JS.trimStart].
  destruct (JS.isWhiteSpace c) eqn:E; [|reflexivity].
  unfold blank in *. cbn [forallb]. now rewrite E.
Qed.

Lemma truthy_trimStart (s : jsstring) : JS.truthy (JS.trimStart s) = negb (blank s).
Proof.
  induction s as [|c r IH]; [reflexivity|]. cbn [JS.trimStart].
  unfold blank in *. cbn [forallb].
  destruct (JS.isWhiteSpace c); [exact IH|reflexivity].
Qed.

Lemma blank_rev (s : jsstring) : blank (rev s) = blank s.
Proof.
  unfold blank. induction s as [|c r IH]; [reflexivity|].
  cbn [rev forallb]. rewrite forallb_app, IH. cbn [forallb].
  now rewrite andb_true_r, andb_comm.
Qed.

Lemma truthy_rev (s : jsstring) : JS.truthy (rev s) = JS.truthy s.
Proof.
  destruct s as [|c r]; [reflexivity|]. cbn [rev].
  now destruct (rev r).
Qed.

(** [s.trim()] is the empty string exactly when [s] is blank. *)
Lemma truthy_trim (s : jsstring) : JS.truthy (JS.trim s) = negb (blank s).
Proof.
  unfold JS.trim.
  now rewrite truthy_rev, truthy_trimStart, blank_rev, trimStart_blank.
Qed.

(** Removing every [**] leaves none: stars come in runs, and a run is
    left with no star or with one. *)
Lemma replaceAll_stars (s : jsstring) (skip : nat) :
  has_double_star (JS.replaceAll_from (js "**") [] skip s) = false.
Proof.
  revert skip; induction s as [|c r IH]; intros skip; [reflexivity|].
  cbn [JS.replaceAll_from]. destruct skip as [|k]; [|apply IH].
  destruct (JS.startsWith (c :: r) (js "**")) eqn:E; [apply IH|].
  cbn [has_double_star]. rewrite (IH 0), orb_false_r.
  destruct (N.eqb_spec c 42) as [->|_]; [|reflexivity].
  destruct r as [|d r']; [reflexivity|].
  cbn in E. rewrite andb_true_r in E.
  cbn [JS.replaceAll_from]. cbn. rewrite E, andb_false_l.
  cbn [andb]. exact E.
Qed.

Lemma eqb_eq (a b : jsstring) : JS.eqb a b = true -> a = b.
Proof.
  revert b; induction a as [|x a IH]; intros [|y b] H; try discriminate H;
    [reflexivity|].
  cbn [JS.eqb] in H. apply andb_prop in H as [Hx Hr].
  apply N.eqb_eq in Hx. subst y. f_equal. now apply IH.
Qed.

Lemma endsWith_suffix (s p : jsstring) :
  JS.endsWith s p = true -> exists pre, s = pre ++ p.
Proof.
  unfold JS.endsWith. intros H. apply andb_prop in H as [_ H].
  apply eqb_eq in H. set (n := length s - length p) in H.
  exists (firstn n s). rewrite <- H. symmetry. apply firstn_skipn.
Qed.

Lemma endsWith_other (pre p q : jsstring) :
  length q = length p -> JS.eqb p q = false -> JS.endsWith (pre ++ p) q = false.
Proof.
  intros Hl Hq. unfold JS.endsWith. rewrite Hl, length_app.
  replace (length pre + length p - length p) with (length pre) by lia.
  rewrite skipn_app_length, Hq. apply andb_false_r.
Qed.

Lemma endsWith_longer (pre p q : jsstring) :
  length q = S (length p) ->
  (forall c, JS.eqb (c :: p) q = false) ->
  JS.endsWith (pre ++ p) q = false.
Proof.
  intros Hl Hq. destruct pre as [|x pre] using rev_ind.
  - unfold JS.endsWith. cbn [app]. rewrite Hl.
    replace (Nat.leb (S (length p)) (length p)) with false; [reflexivity|].
    symmetry. apply Nat.leb_gt. lia.
  - rewrite <- app_assoc. cbn [app].
    apply endsWith_other; [exact Hl|apply Hq].
Qed.

(** A name that ends in [.bin] ends in none of the image suffixes. *)
Lemma bin_is_no_image (lower : jsstring) :
  JS.endsWith lower (js ".bin") = true -> is_image_name lower = false.
Proof.
  intros H. apply endsWith_suffix in H as [pre ->]. unfold is_image_name.
  rewrite (@endsWith_other pre (js ".bin") (js ".jpg")) by reflexivity.
  rewrite (@endsWith_other pre (js ".bin") (js ".png")) by reflexivity.
  rewrite (@endsWith_longer pre (js ".bin") (js ".jpeg"));
    [|reflexivity|intros c; cbn; now rewrite andb_false_r].
  rewrite (@endsWith_longer pre (js ".bin") (js ".webp"));
    [|reflexivity|intros c; cbn; now rewrite andb_false_r].
  reflexivity.
Qed.

Lemma take_firstn {A} (n : N) (l : list A) : take n l = firstn (N.to_nat n) l.
Proof.
  revert n; induction l as [|x l IH]; intros n; simpl.
  - now rewrite firstn_nil.
  - destruct (N.eqb_spec n 0) as [->|Hn]; [reflexivity|].
    rewrite IH. replace (N.to_nat n) with (S (N.to_nat (N.pred n))) by lia.
    reflexivity.
Qed.

Lemma lengthN_length {A} (l : list A) : lengthN l = N.of_nat (length l).
Proof. induction l; simpl; [reflexivity|lia]. Qed.

Lemma take_prefix {A} (n : N) (l : list A) : exists r, l = take n l ++ r.
Proof.
  rewrite take_firstn. exists (skipn (N.to_nat n) l).
  symmetry; apply firstn_skipn.
Qed.

Lemma lengthN_take {A} (n : N) (l : list A) :
  (n <= lengthN l)%N -> lengthN (take n l) = n.
Proof.
  rewrite take_firstn, !lengthN_length. intros H.
  rewrite firstn_length_le by lia. lia.
Qed.

End JSFacts.

(* ================================================================== *)
(** * The hardware form *)
(* ================================================================== *)

Lemma get_with_field (prev : HardwareContext) (field g : Field) (value : jsstring) :
  get g (with_field prev field value) =
  if field_eqb g field then value else get g prev.
Proof. destruct field, g; reflexivity. Qed.

Lemma field_eqb_eq (f g : Field) : field_eqb f g = true <-> f = g.
Proof. destruct f, g; simpl; split; congruence. Qed.

(** C10.  For every field [field] of [HardwareContext] and every string
    [value], [handleInputChange field value] sets that field to [value],
    leaves the other six fields as they were, and changes nothing else of
    the component state. *)
Theorem handleInputChange_frame (s : AppState) (field : Field) (value : jsstring) :
  let s' := run (trace (handleInputChange field value)) s in
  get field (hardware s') = value
  /\ (forall g, g <> field -> get g (hardware s') = get g (hardware s))
  /\ s' = update (setHardware (fun prev => with_field prev field value)) s.
Proof.
  cbv zeta. destruct s as [hw ld imf imp isa ar cs ch ci em]. simpl.
  split; [|split; [|reflexivity]].
  - rewrite get_with_field.
    now replace (field_eqb field field) with true by (now destruct field).
  - intros g Hg. rewrite get_with_field.
    destruct (field_eqb g field) eqn:E; [|reflexivity].
    now apply field_eqb_eq in E.
Qed.

(* ================================================================== *)
(** * File ingestion *)
(* ================================================================== *)

Section FileIngestion.

Context {B : Browser}.

(** The trace of a selection of a text-like file. *)
Lemma handleFileSelect_text (file : File) :
  text_like file ->
  trace (handleFileSelect (Some file)) =
    [Upd (setImageFile None); Upd (setImagePreview None); Upd (setErrorMsg [])]
    ++ (if (MAX_SIZE <? size file)%N
        then Do (blob_text (slice file MAX_SIZE))
             :: if blob_readable file
                then [Resumed Fulfilled;
                      Upd (setLogData (utf8_decode (take MAX_SIZE (blob_bytes file))
                                       ++ truncation_notice))]
                else [Resumed (Rejected notReadable);
                      Do (console_error notReadable);
                      Upd (setErrorMsg read_error_msg)]
        else Do (blob_text file)
             :: if blob_readable file
                then [Resumed Fulfilled;
                      Upd (setLogData (utf8_decode (blob_bytes file)))]
                else [Resumed (Rejected notReadable);
                      Do (console_error notReadable);
                      Upd (setErrorMsg read_error_msg)]).
Proof.
  intros [Himg Hbin]. unfold handleFileSelect. rewrite Himg, Hbin.
  destruct (MAX_SIZE <? size file)%N; unfold read_text, slice, await; simpl;
    destruct (blob_readable file); reflexivity.
Qed.

(** C3.  For a text-like file that can be read, of byte size [S]: when
    [S <= 5 MiB] the log text becomes the decoded content of the whole
    file; when [S > 5 MiB] it becomes the decoded content of the first
    5 MiB of the file's bytes (a prefix of them, exactly [MAX_SIZE] long)
    followed by the truncation notice. *)
Theorem text_file_becomes_log (s : AppState) (file : File) :
  text_like file ->
  blob_readable file = true ->
  let s' := run (trace (handleFileSelect (Some file))) s in
  ((size file <= MAX_SIZE)%N ->
     logData s' = utf8_decode (blob_bytes file))
  /\ ((MAX_SIZE < size file)%N ->
        logData s' = utf8_decode (take MAX_SIZE (blob_bytes file)) ++ truncation_notice
        /\ lengthN (take MAX_SIZE (blob_bytes file)) = MAX_SIZE
        /\ exists r, blob_bytes file = take MAX_SIZE (blob_bytes file) ++ r).
Proof.
  intros Htext Hread. cbv zeta. rewrite (handleFileSelect_text Htext), Hread.
  destruct s as [hw ld imf imp isa ar cs ch ci em].
  split; intros Hsize.
  - apply N.ltb_ge in Hsize. rewrite Hsize. reflexivity.
  - pose proof Hsize as Hlt. apply N.ltb_lt in Hsize. rewrite Hsize.
    split; [reflexivity|]. split.
    + apply JSFacts.lengthN_take. unfold size in Hlt. lia.
    + apply JSFacts.take_prefix.
Qed.

(** C8, amended.  When the read of a selected text-like file fails, the
    fixed message is put in [errorMsg], the image attachment (file and
    preview) has been cleared, and every other cell, the log text among
    them, is as it was before the selection. *)
Theorem failed_read_state (s : AppState) (file : File) :
  text_like file ->
  blob_readable file = false ->
  let s' := run (trace (handleFileSelect (Some file))) s in
  errorMsg s' = read_error_msg
  /\ imageFile s' = None /\ imagePreview s' = None
  /\ hardware s' = hardware s /\ logData s' = logData s
  /\ isAnalyzing s' = isAnalyzing s /\ analysisResult s' = analysisResult s
  /\ chatSession s' = chatSession s /\ chatHistory s' = chatHistory s
  /\ chatInput s' = chatInput s.
Proof.
  intros Htext Hread. cbv zeta. rewrite (handleFileSelect_text Htext), Hread.
  destruct s as [hw ld imf imp isa ar cs ch ci em].
  destruct (MAX_SIZE <? size file)%N; simpl; repeat split; reflexivity.
Qed.

(** C9.  For a file whose lower-cased name ends in [.jpg], [.jpeg],
    [.png] or [.webp], the selection makes no read of the file's content,
    and ends with the image attachment being this file and its preview,
    whatever attachment there was before; besides, [errorMsg] is emptied
    and nothing else changes. *)
Theorem image_file_is_attached (s : AppState) (file : File) :
  JS.endsWith (toLowerCase (name file)) (js ".jpg") = true
  \/ JS.endsWith (toLowerCase (name file)) (js ".jpeg") = true
  \/ JS.endsWith (toLowerCase (name file)) (js ".png") = true
  \/ JS.endsWith (toLowerCase (name file)) (js ".webp") = true ->
  let t := trace (handleFileSelect (Some file)) in
  filter is_read (calls t) = []
  /\ imageFile (run t s) = Some file
  /\ imagePreview (run t s) = Some (createObjectURL file)
  /\ run t s = update (setImagePreview (Some (createObjectURL file)))
                 (update (setImageFile (Some file))
                    (update (setErrorMsg []) s)).
Proof.
  intros H. cbv zeta.
  assert (Himg : is_image_name (toLowerCase (name file)) = true).
  { unfold is_image_name. destruct H as [H|[H|[H|H]]]; rewrite H;
      rewrite ?orb_true_r; reflexivity. }
  unfold handleFileSelect. rewrite Himg.
  destruct s as [hw ld imf imp isa ar cs ch ci em].
  repeat split; reflexivity.
Qed.

End FileIngestion.

Lemma size_big_file : size Sample.big_file = (MAX_SIZE + 1)%N.
Proof.
  unfold size, Sample.big_file. cbn [blob blob_bytes].
  rewrite JSFacts.lengthN_length, repeat_length. apply N2Nat.id.
Qed.

(** A witness for C3: a five-byte log file is taken whole, and a file one
    byte over the ceiling is cut. *)
Lemma text_file_becomes_log_witness :
  let file := Sample.text_file "flight.LOG" "hello" in
  let big := Sample.big_file in
  logData (run (trace (handleFileSelect (B := Sample.browser) (Some file))) initialState)
    = js "hello"
  /\ logData (run (trace (handleFileSelect (B := Sample.browser) (Some big))) initialState)
     = utf8_decode (Browser := Sample.browser) (take MAX_SIZE (blob_bytes big))
       ++ truncation_notice.
Proof.
  cbv zeta. split.
  - refine (proj1 (@text_file_becomes_log Sample.browser initialState
                     (Sample.text_file "flight.LOG" "hello") _ _) _).
    + split; reflexivity.
    + reflexivity.
    + vm_compute; discriminate.
  - refine (proj1 (proj2 (@text_file_becomes_log Sample.browser initialState
                            Sample.big_file _ _) _)).
    + split; reflexivity.
    + reflexivity.
    + rewrite size_big_file. reflexivity.
Defined.

(** The counterexample to C8 as worded: with a screenshot attached,
    selecting a log file that cannot be read clears the attachment. *)
Lemma failed_read_clears_image :
  let img := Sample.image_file "map.png" in
  let s := run (trace (handleFileSelect (B := Sample.browser) (Some img))) initialState in
  let file := Sample.unreadable (Sample.text_file "flight.log" "hello") in
  imageFile s = Some img
  /\ imageFile (run (trace (handleFileSelect (B := Sample.browser) (Some file))) s) = None
  /\ ~ failed_read_changes_only_error (B := Sample.browser) s file.
Proof.
  cbv zeta. split; [reflexivity|]. split; [reflexivity|].
  unfold failed_read_changes_only_error. cbv zeta.
  intros (_ & _ & _ & H & _). discriminate H.
Qed.

(** A witness for C8 as amended, on the same selection. *)
Lemma failed_read_state_witness :
  let s := run (trace (handleFileSelect (B := Sample.browser) (Some (Sample.image_file "map.png"))))
             initialState in
  let file := Sample.unreadable (Sample.text_file "flight.log" "hello") in
  let s' := run (trace (handleFileSelect (B := Sample.browser) (Some file))) s in
  errorMsg s' = read_error_msg /\ imageFile s' = None /\ logData s' = logData s.
Proof.
  cbv zeta.
  pose proof (@failed_read_state Sample.browser
    (run (trace (handleFileSelect (B := Sample.browser) (Some (Sample.image_file "map.png")))) initialState)
    (Sample.unreadable (Sample.text_file "flight.log" "hello"))
    (conj eq_refl eq_refl) eq_refl) as H.
  cbv zeta in H. destruct H as (He & Hi & _ & _ & Hl & _).
  repeat split; assumption.
Defined.

(** A witness for C9: an upper-case [.PNG] replaces a selected [.jpg]. *)
Lemma image_file_is_attached_witness :
  let s := run (trace (handleFileSelect (B := Sample.browser) (Some (Sample.image_file "old.jpg"))))
             initialState in
  let file := Sample.image_file "MAP.PNG" in
  imageFile s = Some (Sample.image_file "old.jpg")
  /\ imageFile (run (trace (handleFileSelect (B := Sample.browser) (Some file))) s) = Some file.
Proof.
  cbv zeta. split; [reflexivity|].
  refine (proj1 (proj2 (@image_file_is_attached Sample.browser _
                          (Sample.image_file "MAP.PNG") _))).
  right; right; left; reflexivity.
Defined.

(* ================================================================== *)
(** * The report renderer *)
(* ================================================================== *)

Lemma startsWith_stars (c : JS.char) (r : jsstring) :
  JS.startsWith (c :: r) (js "**")
  = N.eqb c 42 && match r with b :: _ => N.eqb b 42 | [] => false end.
Proof. destruct r; cbn; now rewrite ?andb_true_r. Qed.

(** The three cases of [replace(/\*\*/g, '')], which between them decide
    its result on every string: the empty string; a string that starts
    with [**]; a string that does not. *)
Lemma replaceAll_pair (r : jsstring) :
  JS.replaceAll (js "**") [] (js "**" ++ r) = JS.replaceAll (js "**") [] r.
Proof. reflexivity. Qed.

Lemma replaceAll_keep (c : JS.char) (r : jsstring) :
  JS.startsWith (c :: r) (js "**") = false ->
  JS.replaceAll (js "**") [] (c :: r) = c :: JS.replaceAll (js "**") [] r.
Proof. intros H. unfold JS.replaceAll. cbn [JS.replaceAll_from]. now rewrite H. Qed.

(** A text in which [**] does not occur is left as it is. *)
Lemma replaceAll_clean (r : jsstring) :
  has_double_star r = false -> JS.replaceAll (js "**") [] r = r.
Proof.
  induction r as [|c r IH]; [reflexivity|]. cbn [has_double_star]. intros H.
  apply orb_false_elim in H as [Hc Hr].
  rewrite replaceAll_keep; [now rewrite IH|].
  now rewrite startsWith_stars.
Qed.

(** Up to its first [**], a text whose first star is that of the [**] is
    kept. *)
Lemma replaceAll_between (a b : jsstring) :
  ~ In 42%N a ->
  JS.replaceAll (js "**") [] (a ++ js "**" ++ b) = a ++ JS.replaceAll (js "**") [] b.
Proof.
  induction a as [|c a IH]; intros H; [reflexivity|].
  cbn [app]. rewrite replaceAll_keep.
  - rewrite <- IH; [reflexivity|]. intros Hin. apply H. now right.
  - rewrite startsWith_stars. destruct (N.eqb_spec c 42) as [->|_]; [|reflexivity].
    exfalso. apply H. now left.
Qed.

(** C4.  The report is rendered line by line: the text is split at line
    breaks and each piece is classified on its own (the rendering of a text
    is the rendering of what precedes a line break followed by the rendering
    of what follows it, and a text without line break is one block).  A line
    that starts with [###] is a heading whose text is the line without that
    marker; one that starts with [**] is a sub-heading whose text is the line
    with that marker and every later [**] removed, so that no [**] is left
    in it: the rest of the line is read from the left, two stars in a row
    are dropped and any other character is kept, so that a rest without
    [**] is shown as it is and [**Title**] is shown as [Title]; one that
    starts with [-]
    is a list item whose text is the line without the hyphen; any other
    line, the empty one included, is a paragraph with the line as its
    text.  Whenever there is report text, this is what is shown. *)
Theorem renderer_classifies_each_line :
  (forall text, renderLines text = map renderLine (JS.split JS.nl text))
  /\ (forall a b, renderLines (a ++ JS.nl :: b) = renderLines a ++ renderLines b)
  /\ (forall line, ~ In JS.nl line -> renderLines line = [renderLine line])
  /\ (forall r, renderLine (js "###" ++ r) = h3 r)
  /\ (forall r, renderLine (js "**" ++ r) = h4 (JS.replaceAll (js "**") [] r)
                /\ has_double_star (JS.replaceAll (js "**") [] r) = false)
  /\ (JS.replaceAll (js "**") [] [] = []
      /\ (forall r, JS.replaceAll (js "**") [] (js "**" ++ r)
                    = JS.replaceAll (js "**") [] r)
      /\ (forall c r, JS.startsWith (c :: r) (js "**") = false ->
                      JS.replaceAll (js "**") [] (c :: r)
                      = c :: JS.replaceAll (js "**") [] r))
  /\ (forall r, has_double_star r = false -> renderLine (js "**" ++ r) = h4 r)
  /\ (forall a, ~ In 42%N a -> renderLine (js "**" ++ a ++ js "**") = h4 a)
  /\ (forall a b, ~ In 42%N a ->
                  renderLine (js "**" ++ a ++ js "**" ++ b)
                  = h4 (a ++ JS.replaceAll (js "**") [] b))
  /\ renderLine (js "**Battery**: **OK**") = h4 (js "Battery: OK")
  /\ renderLine (js "***") = h4 (js "*")
  /\ (forall r, renderLine (js "-" ++ r) = li r)
  /\ (forall line,
        JS.startsWith line (js "###") = false ->
        JS.startsWith line (js "**") = false ->
        JS.startsWith line (js "-") = false ->
        renderLine line = p line)
  /\ renderLine [] = p []
  /\ renderLine (js "### Health Check") = h3 (js " Health Check")
  /\ (forall s text,
        analysisResult s = Some text -> text <> [] ->
        renderReport s = Report (renderLines text)).
Proof.
  split; [reflexivity|].
  split; [intros a b; unfold renderLines; now rewrite JSFacts.split_app, map_app|].
  split; [intros line H; unfold renderLines; now rewrite JSFacts.split_one|].
  split; [intros r; unfold renderLine;
          now rewrite JSFacts.startsWith_app, (JSFacts.replace_prefix (js "###") [] r)|].
  split; [intros r; split; [reflexivity|apply JSFacts.replaceAll_stars]|].
  split; [split; [reflexivity|split; [apply replaceAll_pair|apply replaceAll_keep]]|].
  assert (E : forall r, renderLine (js "**" ++ r) = h4 (JS.replaceAll (js "**") [] r))
    by reflexivity.
  split; [intros r H; now rewrite E, replaceAll_clean|].
  split; [intros a H; rewrite E;
          exact (eq_trans (f_equal h4 (replaceAll_between a [] H))
                   (f_equal h4 (app_nil_r a)))|].
  split; [intros a b H; now rewrite E, replaceAll_between|].
  split; [reflexivity|]. split; [reflexivity|].
  split; [intros r; reflexivity|].
  split; [intros line H1 H2 H3; unfold renderLine; now rewrite H1, H2, H3|].
  split; [reflexivity|]. split; [reflexivity|].
  intros s text Hs Ht. unfold renderReport. rewrite Hs.
  destruct text; [contradiction|reflexivity].
Qed.

Example render_report_sample :
  renderLines (JS.lines [js "### Health Check"; js "**Battery**: **OK**";
                         js "- raise MOT_SPIN_ARM"; []; js "#Not a heading"])
  = [h3 (js " Health Check"); h4 (js "Battery: OK"); li (js " raise MOT_SPIN_ARM");
     p []; p (js "#Not a heading")].
Proof. reflexivity. Qed.

(* ================================================================== *)
(** * Facts about the trace monad *)
(* ================================================================== *)

Lemma bind_ok {A C} (t : Trace) (a : A) (k : A -> M C) :
  bind (t, Ok a) k = (t ++ trace (k a), result (k a)).
Proof. unfold bind. now destruct (k a). Qed.

Lemma bind_err {A C} (t : Trace) (e : Exn) (k : A -> M C) :
  bind (t, Err e) k = (t, Err e).
Proof. reflexivity. Qed.

Lemma try_catch_err {A} (t : Trace) (e : Exn) (h : Exn -> M A) :
  try_catch (t, Err e) h = (t ++ trace (h e), result (h e)).
Proof. unfold try_catch. now destruct (h e). Qed.

Lemma forallb_bind {A C} (P : Event -> bool) (m : M A) (k : A -> M C) :
  forallb P (trace m) = true ->
  (forall a, forallb P (trace (k a)) = true) ->
  forallb P (trace (bind m k)) = true.
Proof.
  destruct m as [t [a|e]]; intros Hm Hk; [|exact Hm].
  rewrite bind_ok. cbn [trace fst] in *. rewrite forallb_app, Hm. apply Hk.
Qed.

Lemma forallb_try_catch {A} (P : Event -> bool) (m : M A) (h : Exn -> M A) :
  forallb P (trace m) = true ->
  (forall e, forallb P (trace (h e)) = true) ->
  forallb P (trace (try_catch m h)) = true.
Proof.
  destruct m as [t [a|e]]; intros Hm Hh; [exact Hm|].
  rewrite try_catch_err. cbn [trace fst] in *. rewrite forallb_app, Hm. apply Hh.
Qed.

Lemma M_eta {A} (m : M A) : m = (trace m, result m).
Proof. now destruct m. Qed.

Lemma analysisResult_writes_app (t u : Trace) :
  analysisResult_writes (t ++ u) = analysisResult_writes t ++ analysisResult_writes u.
Proof. apply flat_map_app. Qed.

Lemma writes_skip (e : Event) (t : Trace) :
  match e with Upd (setAnalysisResult _) => False | _ => True end ->
  analysisResult_writes (e :: t) = analysisResult_writes t.
Proof. destruct e as [[]| |]; intros H; (reflexivity || contradiction). Qed.

Lemma chatSession_writes_app (t u : Trace) :
  chatSession_writes (t ++ u) = chatSession_writes t ++ chatSession_writes u.
Proof. apply flat_map_app. Qed.

Lemma calls_app (t u : Trace) : calls (t ++ u) = calls t ++ calls u.
Proof. apply flat_map_app. Qed.

Lemma run_app (t u : Trace) (s : AppState) : run (t ++ u) s = run u (run t s).
Proof. apply fold_left_app. Qed.

Lemma sync_after (t : Trace) : t = sync_prefix t ++ after_sync t.
Proof.
  induction t as [|e t IH]; [reflexivity|].
  destruct e; cbn [sync_prefix after_sync app]; congruence.
Qed.

(** The pieces of [segments] are the turns of the runtime: the first is
    what runs at the launch, the others make up what is left. *)
Lemma segments_turns (t : Trace) :
  exists later, segments t = sync_prefix t :: later /\ concat later = after_sync t.
Proof.
  induction t as [|e t (later & E & C)]; [now exists []|].
  cbn [segments]. rewrite E.
  destruct e; cbn [sync_prefix after_sync]; try (now exists later).
  exists ((Resumed o :: sync_prefix t) :: later). split; [reflexivity|].
  cbn [concat app]. rewrite C. now rewrite <- sync_after.
Qed.

Lemma last_cons_default {A} (x : A) (l : list A) (d : A) :
  last (x :: l) d = last l x.
Proof.
  revert x d; induction l as [|y l IH]; intros x d; [reflexivity|].
  change (last (x :: y :: l) d) with (last (y :: l) d).
  now rewrite (IH y d), (IH y x).
Qed.

(** The session after a run is the last one written, if any. *)
Lemma chatSession_run (t : Trace) (s : AppState) :
  chatSession (run t s) = last (chatSession_writes t) (chatSession s).
Proof.
  revert s; induction t as [|e t IH]; intros s; [reflexivity|].
  change (run (e :: t) s) with (run t (perform s e)). rewrite IH.
  destruct s; destruct e as [[]| |]; try reflexivity.
  cbn [chatSession_writes flat_map app perform update chatSession].
  fold (chatSession_writes t). now rewrite last_cons_default.
Qed.

(* ================================================================== *)
(** * The analysis orchestrator *)
(* ================================================================== *)

Lemma analysisResult_run (t : Trace) (s : AppState) :
  analysisResult (run t s) = last (analysisResult_writes t) (analysisResult s).
Proof.
  revert s; induction t as [|e t IH]; intros s; [reflexivity|].
  change (run (e :: t) s) with (run t (perform s e)). rewrite IH.
  destruct s; destruct e as [[]| |]; try reflexivity.
  cbn [analysisResult_writes flat_map app perform update analysisResult].
  fold (analysisResult_writes t). now rewrite last_cons_default.
Qed.

Lemma last_running (ds : list jsstring) (acc : jsstring) (d : option jsstring) :
  last (map Some (running acc ds)) d
  = match ds with [] => d | _ :: _ => Some (fold_left (@app JS.char) ds acc) end.
Proof.
  revert acc d; induction ds as [|x r IH]; intros acc d; [reflexivity|].
  cbn [running map fold_left]. rewrite last_cons_default, IH. now destruct r.
Qed.

Lemma deltas_truthy (cs : list Chunk) :
  Forall (fun d => JS.truthy d = true) (deltas cs).
Proof.
  induction cs as [|c cs IH]; [constructor|]. unfold deltas in *. cbn [flat_map].
  destruct (chunk_text c) as [t|]; [|exact IH].
  destruct (JS.truthy t) eqn:Et; [|exact IH]. constructor; [exact Et|exact IH].
Qed.

Lemma fold_truthy (ds : list jsstring) (acc : jsstring) :
  JS.truthy acc = true -> JS.truthy (fold_left (@app JS.char) ds acc) = true.
Proof.
  revert acc; induction ds as [|x r IH]; intros acc H; [exact H|].
  cbn [fold_left]. apply IH. now destruct acc.
Qed.

(** The last value written by the loop, if any, is the whole text, and
    there is one exactly if the whole text is not empty. *)
Lemma last_running_deltas (cs : list Chunk) :
  last (map Some (running [] (deltas cs))) None
  = if JS.truthy (fold_left (@app JS.char) (deltas cs) [])
    then Some (fold_left (@app JS.char) (deltas cs) []) else None.
Proof.
  rewrite last_running. pose proof (deltas_truthy cs) as H.
  destruct (deltas cs) as [|x r]; [reflexivity|].
  apply Forall_cons_iff in H as [Hx _]. cbn [fold_left app].
  now rewrite (fold_truthy r x Hx).
Qed.

Section Analysis.

Context {B : Browser}.

Lemma validation_test (s : AppState) :
  passes_validation s ->
  negb (JS.truthy (JS.trim (logData s))) && negb (isSome (imageFile s)) = false.
Proof.
  rewrite JSFacts.truthy_trim. intros [H|H].
  - now rewrite H.
  - destruct (imageFile s); [|contradiction]. apply andb_false_r.
Qed.

(** A run that gets past validation is the resets followed by the
    attempt. *)
Lemma startAnalysis_trace (s : AppState) (sdk : Remote) :
  passes_validation s ->
  trace (startAnalysis s sdk) = resets ++ attempt s sdk.
Proof.
  intros Hv. unfold startAnalysis, attempt, parts_of.
  rewrite (validation_test Hv).
  unfold generating, streaming, concluded, fileToBase64, await, call_sync.
  destruct (client sdk) as [[]|e]; [|reflexivity].
  destruct (imageFile s) as [f|].
  - destruct (blob_readable f); [|reflexivity].
    destruct (generated sdk) as [st|e]; [|reflexivity].
    cbn -[for_await].
    rewrite (M_eta (for_await analysis_chunk [] (chunks st) (failure st))).
    destruct (result (for_await analysis_chunk [] (chunks st) (failure st)));
      reflexivity.
  - destruct (generated sdk) as [st|e]; [|reflexivity].
    cbn -[for_await].
    rewrite (M_eta (for_await analysis_chunk [] (chunks st) (failure st))).
    destruct (result (for_await analysis_chunk [] (chunks st) (failure st)));
      reflexivity.
Qed.

Lemma analysis_chunk_eq (acc : jsstring) (c : Chunk) :
  analysis_chunk acc c =
  match chunk_text c with
  | Some t => if JS.truthy t
              then ([Upd (setAnalysisResult (Some (acc ++ t)))], Ok (acc ++ t))
              else ([], Ok acc)
  | None => ([], Ok acc)
  end.
Proof.
  unfold analysis_chunk. destruct (chunk_text c) as [t|]; [|reflexivity].
  destruct (JS.truthy t); reflexivity.
Qed.

(** The loop writes the running concatenation of the deltas, one write
    per delta, and nothing for a fragment without text. *)
Lemma loop_writes (cs : list Chunk) (fail : option Exn) (acc : jsstring) :
  analysisResult_writes (trace (for_await analysis_chunk acc cs fail))
  = map Some (running acc (deltas cs)).
Proof.
  revert acc; induction cs as [|c cs IH]; intros acc.
  - destruct fail; reflexivity.
  - cbn [for_await]. unfold emit. rewrite bind_ok, analysis_chunk_eq.
    unfold deltas in *. cbn [flat_map].
    destruct (chunk_text c) as [t|]; [destruct (JS.truthy t)|];
      rewrite bind_ok; cbn [trace fst app analysisResult_writes flat_map];
      fold (analysisResult_writes (trace (for_await analysis_chunk acc cs fail)));
      try fold (analysisResult_writes
                  (trace (for_await analysis_chunk (acc ++ t) cs fail)));
      rewrite IH; reflexivity.
Qed.

(** It returns the whole concatenation, unless the stream throws. *)
Lemma loop_result (cs : list Chunk) (fail : option Exn) (acc : jsstring) :
  result (for_await analysis_chunk acc cs fail)
  = match fail with
    | None => Ok (fold_left (@app JS.char) (deltas cs) acc)
    | Some e => Err e
    end.
Proof.
  revert acc; induction cs as [|c cs IH]; intros acc.
  - destruct fail; reflexivity.
  - cbn [for_await]. unfold emit. rewrite bind_ok, analysis_chunk_eq.
    unfold deltas in *. cbn [flat_map].
    destruct (chunk_text c) as [t|]; [destruct (JS.truthy t)|];
      rewrite bind_ok; cbn [result snd fold_left app]; apply IH.
Qed.

(** It writes no session and makes no call. *)
Lemma loop_quiet (cs : list Chunk) (fail : option Exn) (acc : jsstring) :
  chatSession_writes (trace (for_await analysis_chunk acc cs fail)) = []
  /\ calls (trace (for_await analysis_chunk acc cs fail)) = [].
Proof.
  revert acc; induction cs as [|c cs IH]; intros acc.
  - destruct fail; split; reflexivity.
  - cbn [for_await]. unfold emit. rewrite bind_ok, analysis_chunk_eq.
    destruct (chunk_text c) as [t|]; [destruct (JS.truthy t)|];
      rewrite bind_ok; cbn [trace fst app];
      rewrite ?chatSession_writes_app, ?calls_app; apply IH.
Qed.

(** C2.  When the log text is empty or only white space and no image is
    attached, [startAnalysis] sets the fixed validation message and does
    nothing else: it makes no call at all, hence none to the remote
    service, and it leaves every other cell ([analysisResult],
    [chatSession] and [chatHistory] among them) as it was. *)
Theorem validation_failure_is_local (s : AppState) (sdk : Remote) :
  blank (logData s) = true ->
  imageFile s = None ->
  startAnalysis s sdk = ([Upd (setErrorMsg validation_error_msg)], Ok tt)
  /\ remote_calls (trace (startAnalysis s sdk)) = []
  /\ calls (trace (startAnalysis s sdk)) = []
  /\ run (trace (startAnalysis s sdk)) s = update (setErrorMsg validation_error_msg) s
  /\ analysisResult (run (trace (startAnalysis s sdk)) s) = analysisResult s
  /\ chatSession (run (trace (startAnalysis s sdk)) s) = chatSession s
  /\ chatHistory (run (trace (startAnalysis s sdk)) s) = chatHistory s.
Proof.
  intros Hlog Himg.
  assert (E : startAnalysis s sdk = ([Upd (setErrorMsg validation_error_msg)], Ok tt)).
  { unfold startAnalysis. now rewrite JSFacts.truthy_trim, Hlog, Himg. }
  rewrite E. destruct s. repeat split.
Qed.

(** What the run writes to [analysisResult] once the stream is open. *)
Lemma streamed_writes (s : AppState) (sdk : Remote) (st : Stream) :
  passes_validation s ->
  client sdk = Ok tt ->
  attachment_readable s ->
  generated sdk = Ok st ->
  analysisResult_writes (trace (startAnalysis s sdk))
  = None :: map Some (running [] (deltas (chunks st))).
Proof.
  intros Hv Hc Hr Hg. rewrite (startAnalysis_trace sdk Hv).
  unfold attempt, generating, streaming. rewrite Hc, Hg.
  rewrite analysisResult_writes_app.
  change (analysisResult_writes resets) with [@None jsstring].
  cbn [app]. f_equal.
  destruct (imageFile s) as [f|] eqn:Ef; [rewrite (Hr f Ef)|];
    repeat (rewrite writes_skip by exact I);
    rewrite analysisResult_writes_app, loop_writes;
    destruct (result (for_await analysis_chunk [] (chunks st) (failure st)));
    apply app_nil_r.
Qed.

Lemma length_running (ds : list jsstring) (acc : jsstring) :
  length (running acc ds) = length ds.
Proof. revert acc; induction ds; intros; simpl; auto. Qed.

Lemma filter_isSome_map {A} (l : list A) : filter isSome (map Some l) = map Some l.
Proof. induction l; simpl; congruence. Qed.

Lemma running_app (a b : list jsstring) (acc : jsstring) :
  running acc (a ++ b) = running acc a ++ running (fold_left (@app JS.char) a acc) b.
Proof.
  revert acc; induction a as [|x a IH]; intros acc; [reflexivity|].
  cbn [app running fold_left]. now rewrite IH.
Qed.

Lemma deltas_app (a b : list Chunk) : deltas (a ++ b) = deltas a ++ deltas b.
Proof. apply flat_map_app. Qed.

Lemma arrivals_app (t u : Trace) : arrivals (t ++ u) = arrivals t ++ arrivals u.
Proof. apply flat_map_app. Qed.

Lemma arrivals_yield (c : Chunk) (t : Trace) :
  arrivals (Resumed (Yielded c) :: t) = c :: arrivals t.
Proof. reflexivity. Qed.

Lemma arrivals_upd (u : Update) (t : Trace) : arrivals (Upd u :: t) = arrivals t.
Proof. reflexivity. Qed.

(** What a fragment's turn writes, and what is then accumulated. *)
Lemma fragment_turn_writes (sofar : jsstring) (c : Chunk) :
  analysisResult_writes (fragment_turn sofar c) = map Some (running sofar (deltas [c])).
Proof.
  unfold fragment_turn, deltas. cbn [flat_map].
  destruct (chunk_text c) as [t|]; [destruct (JS.truthy t)|]; reflexivity.
Qed.

(** Every pass of a [for await] loop starts with a resumption: with the
    next fragment, with the end of the stream, or with its failure. *)
Lemma loop_head {S} (body : S -> Chunk -> M S) (acc : S) (cs : list Chunk)
    (fail : option Exn) :
  exists o r, trace (for_await body acc cs fail) = Resumed o :: r.
Proof.
  destruct cs as [|c cs].
  - destruct fail as [e|]; [now exists (Rejected e), []|now exists Exhausted, []].
  - cbn [for_await]. unfold emit. rewrite bind_ok. now eexists _, _.
Qed.

(** The loop at any of its fragments: what came before are the turns of
    the fragments before it, then comes this fragment's turn, then the loop
    goes on with the fragments after it. *)
Lemma loop_split (before after : list Chunk) (c : Chunk) (fail : option Exn)
    (acc : jsstring) :
  exists earlier,
    trace (for_await analysis_chunk acc (before ++ c :: after) fail)
    = earlier
      ++ fragment_turn (fold_left (@app JS.char) (deltas before) acc) c
      ++ trace (for_await analysis_chunk
                  (fold_left (@app JS.char) (deltas (before ++ [c])) acc) after fail)
    /\ arrivals earlier = before
    /\ analysisResult_writes earlier = map Some (running acc (deltas before)).
Proof.
  revert acc; induction before as [|b before IH]; intros acc.
  - exists []. split; [|now split].
    cbn [app for_await]. unfold emit. rewrite bind_ok, analysis_chunk_eq.
    unfold fragment_turn, deltas. cbn [flat_map].
    destruct (chunk_text c) as [t|]; [destruct (JS.truthy t)|];
      rewrite bind_ok; reflexivity.
  - cbn [app for_await]. unfold emit. rewrite bind_ok, analysis_chunk_eq.
    assert (Hd : deltas (b :: before ++ [c]) = deltas [b] ++ deltas (before ++ [c]))
      by apply (deltas_app [b]).
    assert (Hd' : deltas (b :: before) = deltas [b] ++ deltas before)
      by apply (deltas_app [b]).
    change ((b :: before) ++ [c]) with (b :: before ++ [c]).
    assert (Hb : deltas [b] = match chunk_text b with
                              | Some t => if JS.truthy t then [t] else []
                              | None => []
                              end)
      by (unfold deltas; cbn [flat_map]; apply app_nil_r).
    rewrite Hd, Hd', !fold_left_app, running_app, Hb. clear Hd Hd' Hb.
    destruct (chunk_text b) as [t|]; [destruct (JS.truthy t)|];
      rewrite bind_ok; cbn [trace result fst snd app fold_left running map];
      [destruct (IH (acc ++ t)) as (earlier & E & Ha & Hw)
      |destruct (IH acc) as (earlier & E & Ha & Hw)
      |destruct (IH acc) as (earlier & E & Ha & Hw)];
      rewrite E.
    + exists (Resumed (Yielded b) :: Upd (setAnalysisResult (Some (acc ++ t))) :: earlier).
      split; [reflexivity|].
      split; [now rewrite arrivals_yield, arrivals_upd, Ha|].
      cbn [analysisResult_writes flat_map app]. fold (analysisResult_writes earlier).
      now rewrite Hw.
    + exists (Resumed (Yielded b) :: earlier).
      split; [reflexivity|]. split; [now rewrite arrivals_yield, Ha|exact Hw].
    + exists (Resumed (Yielded b) :: earlier).
      split; [reflexivity|]. split; [now rewrite arrivals_yield, Ha|exact Hw].
Qed.

(** C7, amended.  While the analysis streams, a fragment whose text is
    neither absent nor empty makes exactly one update of
    [analysisResult], to the text accumulated so far with the fragment's
    text appended, and a fragment whose text is absent or empty makes no
    update; the updates of a run are the reset followed by one update per
    fragment with text, in the order of the stream.  The update is made in
    the turn in which the fragment arrives: at every fragment of the
    stream, the run has been resumed with exactly the fragments before it
    and has written their texts, it is now resumed with this fragment,
    makes this fragment's update if it has a text, and is suspended again
    at once; the state then holds all the text received so far, this
    fragment's included. *)
Theorem one_update_per_text_fragment (s : AppState) (sdk : Remote) (st : Stream) :
  passes_validation s ->
  client sdk = Ok tt ->
  attachment_readable s ->
  generated sdk = Ok st ->
  (forall fullResponse chunk,
     trace (analysis_chunk fullResponse chunk)
     = match chunk_text chunk with
       | Some t => if JS.truthy t
                   then [Upd (setAnalysisResult (Some (fullResponse ++ t)))]
                   else []
       | None => []
       end)
  /\ analysisResult_writes (trace (startAnalysis s sdk))
     = None :: map Some (running [] (deltas (chunks st)))
  /\ length (filter isSome (analysisResult_writes (trace (startAnalysis s sdk))))
     = length (deltas (chunks st))
  /\ (forall before chunk after,
        chunks st = before ++ chunk :: after ->
        exists earlier o later,
          trace (startAnalysis s sdk)
          = earlier
            ++ fragment_turn (fold_left (@app JS.char) (deltas before) []) chunk
            ++ Resumed o :: later
          /\ arrivals earlier = before
          /\ analysisResult_writes earlier
             = None :: map Some (running [] (deltas before))
          /\ analysisResult
               (run (earlier
                     ++ fragment_turn (fold_left (@app JS.char) (deltas before) [])
                          chunk) s)
             = if JS.truthy (fold_left (@app JS.char) (deltas (before ++ [chunk])) [])
               then Some (fold_left (@app JS.char) (deltas (before ++ [chunk])) [])
               else None).
Proof.
  intros Hv Hc Hr Hg. split; [|split; [|split]].
  - intros acc c. rewrite analysis_chunk_eq.
    destruct (chunk_text c) as [t|]; [destruct (JS.truthy t)|]; reflexivity.
  - now apply streamed_writes.
  - rewrite (streamed_writes sdk Hv Hc Hr Hg). cbn [filter isSome].
    now rewrite filter_isSome_map, length_map, length_running.
  - intros before c after Hcs.
    destruct (loop_split before after c (failure st) []) as (mid & E & Ha & Hw).
    destruct (loop_head analysis_chunk
                (fold_left (@app JS.char) (deltas (before ++ [c])) []) after
                (failure st)) as (o & r & Eo).
    rewrite Eo in E.
    assert (Hpre : exists pre,
               trace (startAnalysis s sdk)
               = (resets ++ pre) ++ streaming (parts_of s) st
               /\ arrivals (resets ++ pre) = []
               /\ analysisResult_writes (resets ++ pre) = [None]).
    { rewrite (startAnalysis_trace sdk Hv). unfold attempt, generating.
      rewrite Hc, Hg.
      destruct (imageFile s) as [f|] eqn:Ef; [rewrite (Hr f Ef)|].
      - exists [Do new_GoogleGenAI; Do (readAsDataURL f); Resumed Fulfilled;
                Do (generateContentStream (request (parts_of s))); Resumed Fulfilled].
        now rewrite <- app_assoc.
      - exists [Do new_GoogleGenAI;
                Do (generateContentStream (request (parts_of s))); Resumed Fulfilled].
        now rewrite <- app_assoc. }
    destruct Hpre as (pre & Et & Hpa & Hpw).
    set (turn := fragment_turn (fold_left (@app JS.char) (deltas before) []) c) in *.
    exists ((resets ++ pre) ++ mid), o.
    exists (r ++ match result (for_await analysis_chunk [] (chunks st) (failure st)) with
                 | Ok fullResponse => concluded (parts_of s) fullResponse
                 | Err e => caught e
                 end).
    split; [|split; [|split]].
    + rewrite Et. unfold streaming. rewrite Hcs, E.
      now rewrite <- !app_assoc.
    + now rewrite arrivals_app, Hpa, Ha.
    + now rewrite analysisResult_writes_app, Hpw, Hw.
    + rewrite analysisResult_run, (analysisResult_writes_app ((resets ++ pre) ++ mid)),
        (analysisResult_writes_app (resets ++ pre)), Hpw, Hw.
      unfold turn. rewrite fragment_turn_writes.
      cbn [app]. rewrite <- map_app, <- running_app, <- deltas_app.
      rewrite last_cons_default.
      rewrite last_running.
      pose proof (last_running_deltas (before ++ [c])) as L.
      rewrite last_running in L.
      destruct (deltas (before ++ [c])); exact L.
Qed.

(** C1.  When the stream yields the fragments "A", "B", "C" and ends, the
    run writes to [analysisResult] the reset and then "A", "AB", "ABC", in
    that order; the session is created and stored in the turn in which
    the stream is found exhausted, after every fragment, and not before;
    its history is the parts that were sent as the user turn and "ABC" as
    the model turn. *)
Theorem analysis_of_A_B_C (s : AppState) (sdk : Remote) :
  passes_validation s ->
  client sdk = Ok tt ->
  attachment_readable s ->
  generated sdk
  = Ok {| chunks := [ {| chunk_text := Some (js "A") |};
                      {| chunk_text := Some (js "B") |};
                      {| chunk_text := Some (js "C") |} ];
          failure := None |} ->
  let t := trace (startAnalysis s sdk) in
  let chat := session (parts_of s) (js "ABC") in
  analysisResult_writes t = [None; Some (js "A"); Some (js "AB"); Some (js "ABC")]
  /\ (exists before,
        t = before
            ++ [Do (generateContentStream (request (parts_of s)));
                Resumed Fulfilled;
                Resumed (Yielded {| chunk_text := Some (js "A") |});
                Upd (setAnalysisResult (Some (js "A")));
                Resumed (Yielded {| chunk_text := Some (js "B") |});
                Upd (setAnalysisResult (Some (js "AB")));
                Resumed (Yielded {| chunk_text := Some (js "C") |});
                Upd (setAnalysisResult (Some (js "ABC")));
                Resumed Exhausted;
                Upd (setIsAnalyzing false);
                Do (chats_create chat);
                Upd (setChatSession (Some chat))]
        /\ analysisResult_writes before = [None]
        /\ chatSession_writes before = [None]
        /\ filter is_remote (calls before) = [new_GoogleGenAI])
  /\ chat_history chat
     = [ {| content_role := user; content_parts := parts_of s |};
         {| content_role := model; content_parts := [TextPart (js "ABC")] |} ]
  /\ chat_systemInstruction chat = systemInstruction
  /\ chatSession (run t s) = Some chat
  /\ analysisResult (run t s) = Some (js "ABC").
Proof.
  intros Hv Hc Hr Hg. cbv zeta.
  rewrite (startAnalysis_trace sdk Hv).
  unfold attempt, generating, streaming. rewrite Hc, Hg.
  destruct s as [hw ld imf imp isa ar cs ch ci em].
  unfold attachment_readable in Hr. cbn [imageFile] in *.
  destruct imf as [f|].
  - rewrite (Hr f eq_refl).
    split; [reflexivity|]. split; [|repeat split].
    exists (resets ++ [Do new_GoogleGenAI; Do (readAsDataURL f); Resumed Fulfilled]).
    repeat split.
  - split; [reflexivity|]. split; [|repeat split].
    exists (resets ++ [Do new_GoogleGenAI]).
    repeat split.
Qed.

End Analysis.

(** A witness for C2: the initial state, where nothing has been entered. *)
Lemma validation_failure_is_local_witness :
  startAnalysis (B := Sample.browser) initialState (Sample.sdk_ok [])
  = ([Upd (setErrorMsg validation_error_msg)], Ok tt).
Proof.
  exact (proj1 (@validation_failure_is_local Sample.browser initialState
                  (Sample.sdk_ok []) eq_refl eq_refl)).
Defined.

Lemma attached_readable : attachment_readable attached.
Proof. intros f H. injection H as <-. reflexivity. Qed.

(** A witness for C1: the run on a screenshot, with no log text. *)
Lemma analysis_of_A_B_C_witness :
  analysisResult_writes
    (trace (startAnalysis (B := Sample.browser) attached
              (Sample.sdk_ok [Sample.fragment "A"; Sample.fragment "B";
                              Sample.fragment "C"])))
  = [None; Some (js "A"); Some (js "AB"); Some (js "ABC")].
Proof.
  refine (proj1 (@analysis_of_A_B_C Sample.browser attached
                   (Sample.sdk_ok [Sample.fragment "A"; Sample.fragment "B";
                                   Sample.fragment "C"])
                   _ eq_refl attached_readable eq_refl)).
  right; discriminate.
Defined.

(** The counterexample to C7 as worded: a stream of two fragments, one
    with no text and one with the empty text, makes no update at all after
    the reset. *)
Lemma silent_fragments_update_nothing :
  let st := Sample.stream_of [{| chunk_text := None |}; Sample.fragment ""] in
  let t := trace (startAnalysis (B := Sample.browser) pasted
                    {| client := Ok tt; generated := Ok st |}) in
  analysisResult_writes t = [None]
  /\ length (chunks st) = 2
  /\ ~ one_update_per_fragment t st.
Proof.
  cbv zeta. split; [reflexivity|]. split; [reflexivity|].
  unfold one_update_per_fragment. discriminate.
Qed.

(** A witness for C7 as amended: of four fragments, the two with text make
    the two updates, and the update of the last one is made in the turn in
    which it arrives, after the three before it. *)
Lemma one_update_per_text_fragment_witness :
  let t := trace (startAnalysis (B := Sample.browser) pasted
                    (Sample.sdk_ok [Sample.fragment "A"; {| chunk_text := None |};
                                    Sample.fragment ""; Sample.fragment "B"])) in
  analysisResult_writes t = [None; Some (js "A"); Some (js "AB")]
  /\ exists earlier o later,
       t = earlier
           ++ [Resumed (Yielded (Sample.fragment "B"));
               Upd (setAnalysisResult (Some (js "AB")))]
           ++ Resumed o :: later
       /\ arrivals earlier
          = [Sample.fragment "A"; {| chunk_text := None |}; Sample.fragment ""].
Proof.
  assert (Hv : passes_validation pasted) by (left; reflexivity).
  assert (Hr : attachment_readable pasted) by (intros f H; discriminate H).
  destruct (@one_update_per_text_fragment Sample.browser pasted
              (Sample.sdk_ok [Sample.fragment "A"; {| chunk_text := None |};
                              Sample.fragment ""; Sample.fragment "B"])
              _ Hv eq_refl Hr eq_refl) as (_ & W & _ & T).
  split; [exact W|].
  destruct (T [Sample.fragment "A"; {| chunk_text := None |}; Sample.fragment ""]
              (Sample.fragment "B") [] eq_refl)
    as (earlier & o & later & E & Ha & _).
  exists earlier, o, later. split; [exact E|exact Ha].
Defined.

(* ================================================================== *)
(** * The chat orchestrator *)
(* ================================================================== *)

(** C5.  With a message that is not blank and a session, when the stream
    yields two fragments with texts [x] and [y], both non-empty, and ends:
    in the turn of the submission the input is cleared and the user's
    message is appended to the history; when the stream opens, an empty
    model message is appended; each fragment then replaces that last entry
    by the text accumulated so far, so that the history ends two entries
    longer, its last entry having been [x] and then [x ++ y].  With a blank
    message, or with no session, the handler does nothing: no update and no
    call. *)
Theorem chat_of_X_Y (s : AppState) (response : Res Stream) :
  (forall chatSession_ x y,
     chatSession s = Some chatSession_ ->
     blank (chatInput s) = false ->
     x <> [] -> y <> [] ->
     response = Ok {| chunks := [ {| chunk_text := Some x |}; {| chunk_text := Some y |} ];
                      failure := None |} ->
     let t := trace (sendChatMessage s response) in
     let h := chatHistory s in
     let u := {| role := user; text := chatInput s |} in
     map chatHistory (turn_states t s)
     = [ h ++ [u];
         h ++ [u; {| role := model; text := [] |}];
         h ++ [u; {| role := model; text := x |}];
         h ++ [u; {| role := model; text := x ++ y |}];
         h ++ [u; {| role := model; text := x ++ y |}] ]
     /\ map chatInput (turn_states t s) = [ []; []; []; []; [] ]
     /\ chatHistory (run t s) = h ++ [u; {| role := model; text := x ++ y |}]
     /\ calls t = [sendMessageStream chatSession_ (chatInput s)])
  /\ (blank (chatInput s) = true \/ chatSession s = None ->
      sendChatMessage s response = ([], Ok tt)).
Proof.
  split.
  - intros c x y Hc Hin Hx Hy ->. cbv zeta.
    unfold sendChatMessage. rewrite JSFacts.truthy_trim, Hc, Hin.
    destruct x as [|x0 x]; [contradiction|]. destruct y as [|y0 y]; [contradiction|].
    destruct s as [hw ld imf imp isa ar cs ch ci em]. cbn.
    assert (E1 : forall (l : list Message) a b, (l ++ [a]) ++ [b] = l ++ [a; b])
      by (intros; now rewrite <- app_assoc).
    assert (E2 : forall (l : list Message) a b b',
               assign_last (l ++ [a; b]) b' = l ++ [a; b']).
    { intros l a b b'. unfold assign_last. rewrite length_app. cbn [length].
      replace (length l + 2) with (S (length l + 1)) by lia.
      replace (length l + 1) with (length (l ++ [a])) by (rewrite length_app; simpl; lia).
      replace (l ++ [a; b]) with ((l ++ [a]) ++ [b]) by apply E1.
      rewrite firstn_app, firstn_all, Nat.sub_diag. cbn [firstn].
      rewrite app_nil_r. apply E1. }
    rewrite !E1, !E2. repeat split.
  - intros [H|H]; unfold sendChatMessage; rewrite JSFacts.truthy_trim, H;
      [reflexivity|].
    now rewrite orb_true_r.
Qed.

Lemma chat_of_X_Y_witness :
  map chatHistory
    (turn_states
       (trace (sendChatMessage chatting
                 (Ok (Sample.stream_of [Sample.fragment "X"; Sample.fragment "Y"]))))
       chatting)
  = [ [{| role := user; text := js "test" |}];
      [{| role := user; text := js "test" |}; {| role := model; text := [] |}];
      [{| role := user; text := js "test" |}; {| role := model; text := js "X" |}];
      [{| role := user; text := js "test" |}; {| role := model; text := js "XY" |}];
      [{| role := user; text := js "test" |}; {| role := model; text := js "XY" |}] ].
Proof.
  refine (proj1 (proj1 (chat_of_X_Y chatting
                          (Ok (Sample.stream_of [Sample.fragment "X"; Sample.fragment "Y"])))
                   _ (js "X") (js "Y") eq_refl eq_refl _ _ eq_refl));
    discriminate.
Defined.

(* ================================================================== *)
(** * The session invariant *)
(* ================================================================== *)

Lemma abs_of_run (an : bool) (seg : Trace) (s : AppState) (d : bool) :
  abs_of (run seg s) (fold_left (track an) seg d) = abs_run an seg (abs_of s d).
Proof.
  revert s d; induction seg as [|e seg IH]; intros s d; [reflexivity|].
  cbn [run abs_run fold_left]. unfold run, abs_run in IH. rewrite IH. f_equal.
  destruct s; destruct e as [[]| |]; reflexivity.
Qed.

Lemma abstract_advance (an : bool) (seg : Trace) (c : Config) (pool' : list Task) :
  abstract (advance an seg c pool') = abs_run an seg (abstract c).
Proof. apply abs_of_run. Qed.

Lemma abs_run_app (an : bool) (t u : Trace) (a : Abs) :
  abs_run an (t ++ u) a = abs_run an u (abs_run an t a).
Proof. apply fold_left_app. Qed.

Lemma neutral_event (a : Abs) (e : Event) :
  neutral e = true -> abs_event false a e = a.
Proof.
  destruct a; destruct e as [[]| |]; intros H; try discriminate H; reflexivity.
Qed.

Lemma neutral_run (t : Trace) (a : Abs) :
  forallb neutral t = true -> abs_run false t a = a.
Proof.
  induction t as [|e t IH]; [reflexivity|]. cbn [forallb abs_run fold_left].
  intros H. apply andb_prop in H as [He Ht]. rewrite (@neutral_event a e He).
  now apply IH.
Qed.

Lemma after_sync_shape (t : Trace) :
  after_sync t = [] \/ exists o r, after_sync t = Resumed o :: r.
Proof.
  induction t as [|e t IH]; [now left|].
  destruct e; cbn [after_sync]; eauto.
Qed.

Lemma neutral_sync_prefix (t : Trace) :
  forallb neutral t = true -> forallb neutral (sync_prefix t) = true.
Proof.
  induction t as [|e t IH]; [reflexivity|]. cbn [forallb]. intros H.
  apply andb_prop in H as [He Ht].
  destruct e; cbn [sync_prefix forallb]; auto; rewrite He; auto.
Qed.

Lemma neutral_after_sync (t : Trace) :
  forallb neutral t = true -> forallb neutral (after_sync t) = true.
Proof.
  induction t as [|e t IH]; [reflexivity|]. cbn [forallb]. intros H.
  pose proof H as H'. apply andb_prop in H as [He Ht].
  destruct e; cbn [after_sync]; auto.
Qed.

(** Running the synchronous part of a good tail leaves a good tail. *)
Lemma tail_good_sync (t : Trace) (a : Abs) :
  tail_good a t = true ->
  tail_good (abs_run true (sync_prefix t) a) (after_sync t) = true.
Proof.
  revert a; induction t as [|e t IH]; intros a H; [exact H|].
  cbn [tail_good] in H. apply andb_prop in H as [He Ht].
  destruct e; cbn [sync_prefix after_sync abs_run fold_left];
    try (apply IH; exact Ht).
  cbn [tail_good]. now rewrite He, Ht.
Qed.

Lemma is_pending_eq (a : Abs) : is_pending a = true -> a = pending.
Proof. destruct a as [[] [] []]; intros H; try discriminate H; reflexivity. Qed.

Lemma is_settled_eq (a : Abs) :
  is_settled a = true -> analyzing a = false /\ has_session a = done a.
Proof.
  destruct a as [[] [] []]; intros H; try discriminate H; split; reflexivity.
Qed.

(** What a good tail leaves after its synchronous part: either it is over
    and the state is settled, or it is suspended and the state is pending. *)
Lemma tail_good_next (t : Trace) (a : Abs) :
  tail_good a t = true ->
  (after_sync t = [] /\ is_settled (abs_run true (sync_prefix t) a) = true)
  \/ (after_sync t <> [] /\ abs_run true (sync_prefix t) a = pending
      /\ tail_good pending (after_sync t) = true).
Proof.
  intros H. apply tail_good_sync in H.
  destruct (after_sync_shape t) as [E|(o & r & E)].
  - left. rewrite E in H. now split.
  - right. split; [rewrite E; discriminate|].
    assert (Hp : abs_run true (sync_prefix t) a = pending).
    { rewrite E in H. cbn [tail_good] in H.
      apply andb_prop in H as [Hp _]. now apply is_pending_eq. }
    split; [exact Hp|]. now rewrite Hp in H.
Qed.

Section SessionInvariant.

Context {B : Browser}.

(** The resets put the state in the pending shape, whatever it was. *)
Lemma resets_pending (a : Abs) : abs_run true resets a = pending.
Proof. reflexivity. Qed.

(** The loop of [startAnalysis] and what follows it: a good tail. *)
Lemma loop_good (parts : list Part) (cs : list Chunk) (fail : option Exn)
    (acc : jsstring) :
  tail_good pending
    (trace (for_await analysis_chunk acc cs fail)
     ++ match result (for_await analysis_chunk acc cs fail) with
        | Ok fullResponse => concluded parts fullResponse
        | Err e => caught e
        end) = true.
Proof.
  revert acc; induction cs as [|c cs IH]; intros acc.
  - destruct fail; reflexivity.
  - cbn [for_await]. unfold emit. rewrite bind_ok, analysis_chunk_eq.
    destruct (chunk_text c) as [t|]; [destruct (JS.truthy t)|];
      rewrite bind_ok; cbn [trace result fst snd app tail_good]; apply IH.
Qed.

Lemma attempt_good (s : AppState) (sdk : Remote) :
  tail_good pending (attempt s sdk) = true.
Proof.
  unfold attempt, generating, streaming.
  destruct (client sdk) as [[]|e]; [|reflexivity].
  destruct (imageFile s) as [f|]; [destruct (blob_readable f); [|reflexivity]|];
    (destruct (generated sdk) as [st|e]; [|reflexivity]);
    cbn [tail_good abs_event is_pending pending has_session analyzing done track
         negb andb];
    apply loop_good.
Qed.

(** Either the invocation is refused, and all it does is set the
    message, or it passes validation. *)
Lemma validation_cases (s : AppState) (sdk : Remote) :
  trace (startAnalysis s sdk) = [Upd (setErrorMsg validation_error_msg)]
  \/ passes_validation s.
Proof.
  unfold startAnalysis, passes_validation. rewrite JSFacts.truthy_trim.
  destruct (blank (logData s)); [|now right; left].
  destruct (imageFile s); [right; right; discriminate|now left].
Qed.

Lemma chat_chunk_eq (acc : jsstring) (c : Chunk) :
  chat_chunk acc c =
  match chunk_text c with
  | Some t =>
      if JS.truthy t
      then ([Upd (updChatHistory
                    (fun prev => assign_last prev
                                   {| role := model; text := acc ++ t |}))],
            Ok (acc ++ t))
      else ([], Ok acc)
  | None => ([], Ok acc)
  end.
Proof.
  unfold chat_chunk. destruct (chunk_text c) as [t|]; [|reflexivity].
  destruct (JS.truthy t); reflexivity.
Qed.

(** The loop of [sendChatMessage] touches neither session nor flag. *)
Lemma chat_loop_neutral (cs : list Chunk) (fail : option Exn) (acc : jsstring) :
  forallb neutral (trace (for_await chat_chunk acc cs fail)) = true.
Proof.
  revert acc; induction cs as [|c cs IH]; intros acc.
  - destruct fail; reflexivity.
  - cbn [for_await]. unfold emit. rewrite bind_ok, chat_chunk_eq.
    destruct (chunk_text c) as [t|]; [destruct (JS.truthy t)|];
      rewrite bind_ok; cbn [trace fst app forallb neutral andb]; apply IH.
Qed.

Lemma sendChatMessage_neutral (s : AppState) (response : Res Stream) :
  forallb neutral (trace (sendChatMessage s response)) = true.
Proof.
  unfold sendChatMessage.
  destruct (negb (JS.truthy (JS.trim (chatInput s))) || negb (isSome (chatSession s)));
    [reflexivity|].
  destruct (chatSession s) as [c|]; [|reflexivity].
  apply forallb_bind; [reflexivity|intros _].
  apply forallb_bind; [reflexivity|intros _].
  apply forallb_try_catch; [|reflexivity].
  apply forallb_bind; [now destruct response|intros st].
  apply forallb_bind; [reflexivity|intros _].
  apply forallb_bind; [apply chat_loop_neutral|reflexivity].
Qed.

Lemma handleFileSelect_neutral (files : option File) :
  forallb neutral (trace (handleFileSelect files)) = true.
Proof.
  destruct files as [file|]; [|reflexivity]. unfold handleFileSelect.
  destruct (is_image_name (toLowerCase (name file))); [reflexivity|].
  destruct (JS.endsWith (toLowerCase (name file)) (js ".bin")); [reflexivity|].
  unfold read_text, slice, await.
  destruct (MAX_SIZE <? size file)%N; cbn [blob_readable];
    destruct (blob_readable file); reflexivity.
Qed.

(** Every handler but [startAnalysis] leaves session and flag alone. *)
Lemma handler_neutral (a : Action) (s : AppState) :
  is_analysis a = false -> forallb neutral (trace (handler a s)) = true.
Proof.
  destruct a; intros H; try discriminate H; try reflexivity.
  - apply handleFileSelect_neutral.
  - apply sendChatMessage_neutral.
Qed.

Lemma suspended_nil (an : bool) (t : Trace) :
  after_sync t = [] -> suspended an t = [].
Proof. unfold suspended. now intros ->. Qed.

Lemma suspended_one (an : bool) (t : Trace) :
  after_sync t <> [] -> suspended an t = [{| analysis := an; rest := after_sync t |}].
Proof. unfold suspended. destruct (after_sync t); [contradiction|reflexivity]. Qed.

Lemma filter_nil_length {A} (f : A -> bool) (l : list A) :
  length (filter f l) = 0 -> filter f l = [].
Proof. destruct (filter f l); [reflexivity|discriminate]. Qed.

(** A turn of [startAnalysis], the first or a later one, keeps the
    invariant when no other analysis is suspended. *)
Lemma inv_analysis_turn (c' : Config) (a1 : Abs) (t : Trace)
    (before after : list Task) :
  abstract c' = abs_run true (sync_prefix t) a1 ->
  tail_good a1 t = true ->
  pool c' = before ++ suspended true t ++ after ->
  Forall (fun k => task_ok k = true) before ->
  Forall (fun k => task_ok k = true) after ->
  filter analysis before = [] ->
  filter analysis after = [] ->
  inv c'.
Proof.
  intros Ha Hg Hp Hb Hf Fb Ff. unfold inv. rewrite Ha, Hp.
  destruct (@tail_good_next t a1 Hg) as [[E Hs]|(E & Hpend & Hrest)].
  - rewrite (@suspended_nil true t E). cbn [app].
    apply is_settled_eq in Hs as [Hs1 Hs2]. rewrite Hs1.
    repeat split; try assumption.
    + discriminate.
    + apply Forall_app; now split.
    + now rewrite filter_app, Fb, Ff.
  - rewrite (@suspended_one true t E), Hpend. cbn [app].
    repeat split.
    + apply Forall_app; split; [assumption|].
      constructor; [exact Hrest|assumption].
    + rewrite filter_app, Fb. cbn [filter analysis app]. now rewrite Ff.
Qed.

(** A turn of any other handler keeps it too. *)
Lemma inv_neutral_turn (c c' : Config) :
  inv c ->
  abstract c' = abstract c ->
  Forall (fun k => task_ok k = true) (pool c') ->
  length (filter analysis (pool c')) = length (filter analysis (pool c)) ->
  inv c'.
Proof.
  intros (I1 & I2 & I3 & I4) Ha Hp Hl. unfold inv. rewrite Ha, Hl.
  repeat split; assumption.
Qed.

Lemma inv_init : inv {| ui := initialState; pool := []; completed := false |}.
Proof. repeat split; [discriminate|constructor]. Qed.

Lemma inv_turn (c c' : Config) : inv c -> turn c c' -> inv c'.
Proof.
  intros I Ht. destruct Ht as [c a Hen|c before after an e t Hpool].
  - (* a handler is launched *)
    unfold launched. destruct (is_analysis a) eqn:Ean.
    + destruct a as [| | | |sdk| |]; try discriminate Ean.
      cbn [handler enabled] in *.
      destruct I as (I1 & I2 & I3 & I4).
      assert (Hidle : analyzing (abstract c) = false).
      { unfold abstract, abs_of. cbn [analyzing].
        now destruct (isAnalyzing (ui c)). }
      rewrite Hidle in I4. apply filter_nil_length in I4.
      destruct (validation_cases (ui c) sdk) as [E|Hv].
      * rewrite E. apply inv_neutral_turn with (c := c).
        -- repeat split; try assumption. rewrite Hidle, I4. reflexivity.
        -- rewrite abstract_advance. reflexivity.
        -- cbn [advance pool suspended after_sync]. now rewrite app_nil_r.
        -- cbn [advance pool suspended after_sync]. now rewrite app_nil_r.
      * rewrite (startAnalysis_trace sdk Hv).
        apply inv_analysis_turn
          with (a1 := pending) (t := attempt (ui c) sdk) (before := pool c) (after := []).
        -- rewrite abstract_advance.
           change (sync_prefix (resets ++ attempt (ui c) sdk))
             with (resets ++ sync_prefix (attempt (ui c) sdk)).
           now rewrite abs_run_app, resets_pending.
        -- apply attempt_good.
        -- cbn [advance pool]. now rewrite app_nil_r.
        -- assumption.
        -- constructor.
        -- assumption.
        -- reflexivity.
    + pose proof (@handler_neutral a (ui c) Ean) as Hn.
      apply inv_neutral_turn with (c := c); [assumption| | |].
      * rewrite abstract_advance. apply neutral_run.
        now apply neutral_sync_prefix.
      * cbn [advance pool]. destruct I as (_ & _ & I3 & _).
        apply Forall_app; split; [assumption|].
        unfold suspended.
        pose proof (@neutral_after_sync _ Hn) as Hr.
        destruct (after_sync (trace (handler a (ui c)))); constructor;
          [exact Hr|constructor].
      * cbn [advance pool]. rewrite filter_app. unfold suspended.
        destruct (after_sync (trace (handler a (ui c))));
          cbn [filter analysis]; now rewrite app_nil_r.
  - (* a suspended handler is resumed *)
    destruct I as (I1 & I2 & I3 & I4).
    rewrite Hpool in I3, I4.
    apply Forall_app in I3 as [Hb I3]. apply Forall_cons_iff in I3 as [Hk Hf].
    rewrite filter_app in I4. cbn [filter analysis] in I4.
    destruct an.
    + rewrite length_app in I4. cbn [length] in I4.
      destruct (analyzing (abstract c)) eqn:Ea; [|lia].
      assert (Fb : filter analysis before = [])
        by (apply filter_nil_length; lia).
      assert (Ff : filter analysis after = [])
        by (apply filter_nil_length; lia).
      specialize (I2 eq_refl).
      unfold task_ok in Hk. cbn [analysis rest tail_good] in Hk.
      apply andb_prop in Hk as [_ Hk].
      apply inv_analysis_turn
        with (a1 := abs_event true pending e) (t := t) (before := before) (after := after);
        try assumption.
      * rewrite abstract_advance, I2. reflexivity.
      * reflexivity.
    + unfold task_ok in Hk. cbn [analysis rest forallb] in Hk.
      apply andb_prop in Hk as [He Hk].
      apply inv_neutral_turn with (c := c).
      * unfold inv. rewrite Hpool, filter_app. cbn [filter analysis].
        repeat split; try assumption.
        apply Forall_app; split; [assumption|].
        constructor; [|assumption].
        unfold task_ok. cbn [analysis rest forallb]. now rewrite He, Hk.
      * rewrite abstract_advance. apply neutral_run.
        cbn [forallb]. rewrite He. now apply neutral_sync_prefix.
      * cbn [advance pool]. apply Forall_app; split; [assumption|].
        apply Forall_app; split; [|assumption].
        unfold suspended. pose proof (@neutral_after_sync _ Hk) as Hr.
        destruct (after_sync t); constructor; [exact Hr|constructor].
      * cbn [advance pool]. rewrite Hpool, !filter_app. unfold suspended.
        destruct (after_sync t); cbn [filter analysis app]; reflexivity.
Qed.

Lemma inv_reachable (c : Config) : reachable c -> inv c.
Proof.
  induction 1 as [|c c' _ IH Ht]; [apply inv_init|].
  now apply inv_turn with (c := c).
Qed.

End SessionInvariant.

Section SessionTheorem.

Context {B : Browser}.

Lemma loop_exhausted (cs : list Chunk) (fail : option Exn) (acc : jsstring) :
  existsb is_exhausted (trace (for_await analysis_chunk acc cs fail))
  = match fail with None => true | Some _ => false end.
Proof.
  revert acc; induction cs as [|c cs IH]; intros acc.
  - destruct fail; reflexivity.
  - cbn [for_await]. unfold emit. rewrite bind_ok, analysis_chunk_eq.
    destruct (chunk_text c) as [t|]; [destruct (JS.truthy t)|];
      rewrite bind_ok; cbn [trace fst app existsb is_exhausted orb]; apply IH.
Qed.

(** A run past validation resets the session; it sets one only at the end
    of a run that succeeds, and its stream is found exhausted exactly in
    such a run. *)
Lemma session_writes (s : AppState) (sdk : Remote) :
  passes_validation s ->
  chatSession_writes (trace (startAnalysis s sdk))
  = None :: (if succeeds s sdk
             then [Some (session (parts_of s) (full_text sdk))]
             else [])
  /\ existsb is_exhausted (trace (startAnalysis s sdk)) = succeeds s sdk.
Proof.
  intros Hv. rewrite (startAnalysis_trace sdk Hv).
  rewrite chatSession_writes_app, existsb_app.
  change (chatSession_writes resets) with [@None Chat].
  change (existsb is_exhausted resets) with false.
  cbn [app orb].
  unfold attempt, generating, streaming, succeeds, full_text.
  destruct (client sdk) as [[]|e]; [|split; reflexivity].
  assert (Hs : forall parts st,
    chatSession_writes
      (trace (for_await analysis_chunk [] (chunks st) (failure st))
       ++ match result (for_await analysis_chunk [] (chunks st) (failure st)) with
          | Ok fullResponse => concluded parts fullResponse
          | Err e => caught e
          end)
    = (if match failure st with None => true | Some _ => false end
       then [Some (session parts (fold_left (@app JS.char) (deltas (chunks st)) []))]
       else [])
    /\ existsb is_exhausted
         (trace (for_await analysis_chunk [] (chunks st) (failure st))
          ++ match result (for_await analysis_chunk [] (chunks st) (failure st)) with
             | Ok fullResponse => concluded parts fullResponse
             | Err e => caught e
             end)
       = match failure st with None => true | Some _ => false end).
  { intros parts st.
    rewrite chatSession_writes_app, existsb_app, loop_exhausted, loop_result.
    rewrite (proj1 (loop_quiet (chunks st) (failure st) [])).
    destruct (failure st); split; reflexivity. }
  destruct (imageFile s) as [f|].
  - destruct (blob_readable f).
    + destruct (generated sdk) as [st|e]; [|split; reflexivity].
      destruct (Hs (parts_of s) st) as [H1 H2].
      cbn [chatSession_writes flat_map app existsb is_exhausted orb] in *.
      unfold chatSession_writes in H1. rewrite H1, H2, andb_true_r.
      split; [f_equal|reflexivity].
    + destruct (generated sdk) as [st|e]; [|split; reflexivity].
      rewrite andb_false_r. split; reflexivity.
  - destruct (generated sdk) as [st|e]; [|split; reflexivity].
    destruct (Hs (parts_of s) st) as [H1 H2].
    cbn [chatSession_writes flat_map app existsb is_exhausted orb] in *.
    unfold chatSession_writes in H1. rewrite H1, H2, andb_true_r.
    split; [f_equal|reflexivity].
Qed.

(** The first turn of a run past validation clears the session and the
    history together, and the report with them. *)
Lemma launch_clears (c : Config) (sdk : Remote) :
  passes_validation (ui c) ->
  chatSession (ui (launched (StartAnalysis sdk) c)) = None
  /\ chatHistory (ui (launched (StartAnalysis sdk) c)) = []
  /\ analysisResult (ui (launched (StartAnalysis sdk) c)) = None
  /\ completed (launched (StartAnalysis sdk) c) = false.
Proof.
  intros Hv. unfold launched. cbn [handler is_analysis advance ui completed].
  rewrite (startAnalysis_trace sdk Hv).
  unfold attempt, generating.
  destruct (ui c) as [hw ld imf imp isa ar cs ch ci em]. cbn [imageFile].
  destruct (client sdk) as [[]|e]; [|repeat split].
  destruct imf as [f|]; [destruct (blob_readable f)|];
    destruct (generated sdk); repeat split.
Qed.

(** C6.  In every reachable state there is a session exactly if the most
    recent analysis that got past validation has seen its stream run to
    the end.  Starting an analysis past validation clears the session and
    the history in one turn; a run writes a session only as the last step
    of a run that succeeds, which is also the only kind of run whose stream
    is found exhausted, so that a run that fails leaves no session. *)
Theorem session_iff_analysis_completed (c : Config) :
  reachable c ->
  (chatSession (ui c) <> None <-> completed c = true)
  /\ (forall sdk,
        enabled (StartAnalysis sdk) (ui c) = true ->
        passes_validation (ui c) ->
        chatSession (ui (launched (StartAnalysis sdk) c)) = None
        /\ chatHistory (ui (launched (StartAnalysis sdk) c)) = []
        /\ completed (launched (StartAnalysis sdk) c) = false
        /\ reachable (launched (StartAnalysis sdk) c))
  /\ (forall sdk,
        passes_validation (ui c) ->
        chatSession_writes (trace (startAnalysis (ui c) sdk))
        = None :: (if succeeds (ui c) sdk
                   then [Some (session (parts_of (ui c)) (full_text sdk))]
                   else [])
        /\ existsb is_exhausted (trace (startAnalysis (ui c) sdk))
           = succeeds (ui c) sdk
        /\ chatSession (run (trace (startAnalysis (ui c) sdk)) (ui c))
           = if succeeds (ui c) sdk
             then Some (session (parts_of (ui c)) (full_text sdk))
             else None).
Proof.
  intros Hr. split; [|split].
  - destruct (inv_reachable Hr) as (I1 & _).
    unfold abstract, abs_of in I1. cbn [has_session done] in I1.
    rewrite <- I1. destruct (chatSession (ui c)); simpl; split; congruence.
  - intros sdk Hen Hv.
    destruct (@launch_clears c sdk Hv) as (H1 & H2 & _ & H4).
    repeat split; try assumption.
    apply reachable_turn with (c := c); [assumption|].
    apply (launch c (StartAnalysis sdk) Hen).
  - intros sdk Hv. destruct (session_writes sdk Hv) as [Hw He].
    split; [exact Hw|]. split; [exact He|].
    rewrite chatSession_run, Hw. now destruct (succeeds (ui c) sdk).
Qed.

End SessionTheorem.

Lemma resume_first_turn {B : Browser} (c : Config) (an : bool) (e : Event)
    (t : Trace) (after : list Task) :
  pool c = {| analysis := an; rest := e :: t |} :: after ->
  turn c (resume_first c).
Proof.
  intros H. unfold resume_first. rewrite H.
  exact (resume c [] after an e t H).
Qed.

Lemma analysis_started_reachable : reachable (B := Sample.browser) analysis_started.
Proof.
  unfold analysis_started.
  eapply reachable_turn; [eapply reachable_turn; [apply reachable_init|]|];
    apply launch; reflexivity.
Qed.

Lemma analysis_completed_reachable : reachable (B := Sample.browser) analysis_completed.
Proof.
  unfold analysis_completed.
  eapply reachable_turn;
    [eapply reachable_turn;
       [eapply reachable_turn; [apply analysis_started_reachable|]|]|];
    eapply resume_first_turn; reflexivity.
Qed.

(** A witness for C6: while the analysis runs there is no session and it
    has not completed; once its stream has ended there is one and it has. *)
Lemma session_iff_analysis_completed_witness :
  (chatSession (ui analysis_started) = None /\ completed analysis_started = false)
  /\ (chatSession (ui analysis_completed) <> None /\ completed analysis_completed = true).
Proof.
  split; [split; reflexivity|].
  assert (H : chatSession (ui analysis_completed) <> None) by discriminate.
  split; [exact H|].
  exact (proj1 (proj1 (@session_iff_analysis_completed Sample.browser
                         analysis_completed analysis_completed_reachable)) H).
Defined.

(* ================================================================== *)
(** * Further properties *)
(* ================================================================== *)

Section Further.

Context {B : Browser}.

(** X1.  A file whose lower-cased name ends in [.bin] is not read: the
    selection clears the attachment and the message, and puts the fixed
    notice, verbatim, in the log text. *)
Theorem binary_file_is_refused (s : AppState) (file : File) :
  JS.endsWith (toLowerCase (name file)) (js ".bin") = true ->
  trace (handleFileSelect (Some file))
  = [Upd (setImageFile None); Upd (setImagePreview None); Upd (setErrorMsg []);
     Upd (setLogData binary_notice)]
  /\ calls (trace (handleFileSelect (Some file))) = []
  /\ logData (run (trace (handleFileSelect (Some file))) s) = binary_notice
  /\ imageFile (run (trace (handleFileSelect (Some file))) s) = None.
Proof.
  intros H. unfold handleFileSelect.
  rewrite (JSFacts.bin_is_no_image _ H), H.
  destruct s. repeat split.
Qed.




(** X3.  When [sendMessageStream] rejects with [e], the user's message
    stays in the history and a model message reading "Error: " followed by
    the message of [e] is appended after it; the input is cleared. *)
Theorem chat_failure_is_appended (s : AppState) (session_ : Chat) (e : Exn) :
  chatSession s = Some session_ ->
  blank (chatInput s) = false ->
  let t := trace (sendChatMessage s (Err e)) in
  chatHistory (run t s)
  = chatHistory s
    ++ [ {| role := user; text := chatInput s |};
         {| role := model; text := js "Error: " ++ message_string e |} ]
  /\ chatInput (run t s) = []
  /\ chatSession (run t s) = Some session_.
Proof.
  intros Hc Hin. cbv zeta. unfold sendChatMessage.
  rewrite JSFacts.truthy_trim, Hc, Hin.
  destruct s as [hw ld imf imp isa ar cs ch ci em]. cbn in *.
  rewrite <- app_assoc. repeat split. exact Hc.
Qed.

End Further.

Lemma binary_file_is_refused_witness :
  logData (run (trace (handleFileSelect (B := Sample.browser)
                         (Some (Sample.text_file "00000042.BIN" "binary"))))
             initialState)
  = binary_notice.
Proof.
  exact (proj1 (proj2 (proj2 (@binary_file_is_refused Sample.browser initialState
                                (Sample.text_file "00000042.BIN" "binary") eq_refl)))).
Defined.


Lemma chat_failure_is_appended_witness :
  chatHistory (run (trace (sendChatMessage chatting (Err {| message := None |}))) chatting)
  = [ {| role := user; text := js "test" |};
      {| role := model; text := js "Error: undefined" |} ].
Proof.
  refine (proj1 (@chat_failure_is_appended chatting _ {| message := None |} eq_refl eq_refl)).
Defined.

(* ================================================================== *)
(** * The prompt, the form and the attachment *)
(* ================================================================== *)




Lemma with_field_twice (h : HardwareContext) (f : Field) (v w : jsstring) :
  with_field (with_field h f v) f w = with_field h f w.
Proof. destruct f; reflexivity. Qed.

Lemma with_field_swap (h : HardwareContext) (f g : Field) (v w : jsstring) :
  f <> g ->
  with_field (with_field h f v) g w = with_field (with_field h g w) f v.
Proof. destruct f, g; intros H; try reflexivity; contradiction. Qed.

(** X5.  Two edits of the hardware form made one after the other are
    both applied, each to the fields as the other left them: edits of two
    different fields give the same fields in either order, and of two edits
    of one field the later value stays. *)
Theorem hardware_edits_compose (s : AppState) (f g : Field) (v w : jsstring) :
  let first := trace (handleInputChange f v) in
  let second := trace (handleInputChange g w) in
  hardware (run (first ++ second) s) = with_field (with_field (hardware s) f v) g w
  /\ (f <> g -> run (first ++ second) s = run (second ++ first) s)
  /\ (f = g -> run (first ++ second) s = run second s)
  /\ (f <> g -> get f (hardware (run (first ++ second) s)) = v
               /\ get g (hardware (run (first ++ second) s)) = w).
Proof.
  cbv zeta. destruct s as [hw ld imf imp isa ar cs ch ci em].
  cbn [handleInputChange set emit trace fst app run fold_left perform update hardware].
  split; [reflexivity|]. split; [|split].
  - intros H. now rewrite (with_field_swap hw v w H).
  - intros <-. now rewrite with_field_twice.
  - intros H. rewrite !get_with_field.
    replace (field_eqb f g) with false.
    + now destruct f, g.
    + symmetry. destruct (field_eqb f g) eqn:E; [|reflexivity].
      now apply field_eqb_eq in E.
Qed.

Section Attachment.

Context {B : Browser}.

(** X6.  [clearImage] empties the two attachment cells, resets the file
    input and changes nothing else; after the selection of an image it
    brings back the state before the selection, but for the message that the
    selection emptied; and when the log text is blank, the next analysis is
    refused. *)
Theorem clearImage_undoes_selection (s : AppState) :
  calls (trace clearImage) = [reset_file_input]
  /\ run (trace clearImage) s
     = update (setImagePreview None) (update (setImageFile None) s)
  /\ (forall file,
        is_image_name (toLowerCase (name file)) = true ->
        imageFile s = None -> imagePreview s = None ->
        run (trace clearImage) (run (trace (handleFileSelect (Some file))) s)
        = update (setErrorMsg []) s)
  /\ (forall sdk,
        blank (logData s) = true ->
        startAnalysis (run (trace clearImage) s) sdk
        = ([Upd (setErrorMsg validation_error_msg)], Ok tt)).
Proof.
  destruct s as [hw ld imf imp isa ar cs ch ci em].
  split; [reflexivity|]. split; [reflexivity|]. split.
  - intros file Himg Hf Hp. cbn [imageFile imagePreview] in *. subst.
    unfold handleFileSelect. rewrite Himg. reflexivity.
  - intros sdk Hb. cbn [logData] in Hb. unfold startAnalysis.
    cbn [clearImage set call emit bind ret trace fst app run fold_left perform update
         logData imageFile].
    now rewrite JSFacts.truthy_trim, Hb.
Qed.

(** X7.  [fileToBase64] gives what stands between the first comma of the
    data URL and the next one, or its end: the whole payload when it has no
    comma, as a base64 text has none, and only its part before the comma
    otherwise.  For a data URL without comma it gives [undefined], and when
    the file cannot be read it rejects with a value that has no message. *)
Theorem fileToBase64_payload (file : File) :
  (forall head payload,
     blob_readable file = true ->
     dataURL file = head ++ 44%N :: payload ->
     ~ In 44%N head -> ~ In 44%N payload ->
     fileToBase64 file
     = ([Do (readAsDataURL file); Resumed Fulfilled], Ok (Some payload)))
  /\ (forall head payload more,
        blob_readable file = true ->
        dataURL file = head ++ 44%N :: payload ++ 44%N :: more ->
        ~ In 44%N head -> ~ In 44%N payload ->
        result (fileToBase64 file) = Ok (Some payload))
  /\ (blob_readable file = true -> ~ In 44%N (dataURL file) ->
      result (fileToBase64 file) = Ok None)
  /\ (blob_readable file = false ->
      fileToBase64 file
      = ([Do (readAsDataURL file); Resumed (Rejected {| message := None |})],
         Err {| message := None |})).
Proof.
  unfold fileToBase64, await, result. split; [|split; [|split]].
  - intros head payload Hr E Hh Hp. rewrite Hr, E.
    rewrite JSFacts.split_app, (@JSFacts.split_one _ _ Hh), (@JSFacts.split_one _ _ Hp).
    reflexivity.
  - intros head payload more Hr E Hh Hp. rewrite Hr, E.
    rewrite !JSFacts.split_app, (@JSFacts.split_one _ _ Hh), (@JSFacts.split_one _ _ Hp).
    reflexivity.
  - intros Hr Hn. now rewrite Hr, (@JSFacts.split_one _ _ Hn).
  - intros Hr. now rewrite Hr.
Qed.

End Attachment.

Lemma clearImage_undoes_selection_witness :
  run (trace clearImage) attached = update (setErrorMsg []) initialState.
Proof.
  exact (proj1 (proj2 (proj2 (@clearImage_undoes_selection Sample.browser initialState)))
           (Sample.image_file "map.png") eq_refl eq_refl eq_refl).
Defined.

Lemma fileToBase64_payload_witness :
  fileToBase64 (B := Sample.browser) (Sample.image_file "map.png")
  = ([Do (readAsDataURL (Sample.image_file "map.png")); Resumed Fulfilled],
     Ok (Some (js "TWFu"))).
Proof.
  refine (proj1 (@fileToBase64_payload Sample.browser (Sample.image_file "map.png"))
            (js "data:image/png;base64") (js "TWFu") eq_refl eq_refl _ _).
  - cbn. intuition discriminate.
  - cbn. intuition discriminate.
Defined.

(* ================================================================== *)
(** * More on the report renderer *)
(* ================================================================== *)

Lemma startsWith_eq (s pre : jsstring) :
  JS.startsWith s pre = true -> s = pre ++ skipn (length pre) s.
Proof.
  revert s; induction pre as [|c pre IH]; intros s H; [reflexivity|].
  destruct s as [|x s]; [discriminate H|]. cbn [JS.startsWith] in H.
  apply andb_prop in H as [Hx Hs]. apply N.eqb_eq in Hx. subst x.
  cbn [length skipn app]. f_equal. now apply IH.
Qed.

(** Removing every [**] removes stars and nothing else, whether the scan
    starts in the open or on the second star of a pair. *)
Lemma replaceAll_unmarked (s : jsstring) (skip : nat) :
  skip = 0 \/ (skip = 1 /\ exists r, s = 42%N :: r) ->
  unmarked (JS.replaceAll_from (js "**") [] skip s) = unmarked s
  /\ length (JS.replaceAll_from (js "**") [] skip s) <= length s.
Proof.
  revert skip; induction s as [|c r IH]; intros skip H; [now split|].
  destruct H as [->|(-> & r' & E)].
  - cbn [JS.replaceAll_from].
    destruct (JS.startsWith (c :: r) (js "**")) eqn:S.
    + apply startsWith_eq in S. cbn in S. injection S as -> S.
      destruct (IH 1) as [IH1 IH2]; [right; split; [reflexivity|now exists (skipn 1 r)]|].
      change (length (js "**") - 1) with 1. cbn [app length].
      rewrite IH1. split; [reflexivity|]. lia.
    + destruct (IH 0) as [IH1 IH2]; [now left|].
      unfold unmarked in *. cbn [filter length]. rewrite IH1. split; [reflexivity|lia].
  - injection E as -> _. cbn [JS.replaceAll_from].
    destruct (IH 0) as [IH1 IH2]; [now left|].
    rewrite IH1. split; [reflexivity|]. cbn [length]. lia.
Qed.

(** Apart from marker characters, what is shown of a line is the line. *)
Lemma renderLine_unmarked (line : jsstring) :
  unmarked (shown (renderLine line)) = unmarked line
  /\ length (shown (renderLine line)) <= length line
  /\ (unmarked line = line -> renderLine line = p line).
Proof.
  assert (L : forall r, length (unmarked r) <= length r)
    by (intros r; apply filter_length_le).
  unfold renderLine.
  destruct (JS.startsWith line (js "###")) eqn:H3.
  { apply startsWith_eq in H3.
    set (r := skipn (length (js "###")) line) in H3. clearbody r. subst line.
    rewrite (JSFacts.replace_prefix (js "###") [] r). cbn [shown app].
    split; [reflexivity|]. split; [cbn; lia|].
    cbn. intros H. specialize (L r). unfold unmarked in L. rewrite H in L.
    cbn [length] in L. lia. }
  destruct (JS.startsWith line (js "**")) eqn:H2.
  { cbn [shown]. unfold JS.replaceAll.
    destruct (@replaceAll_unmarked line 0) as [E Le]; [now left|].
    split; [exact E|]. split; [exact Le|].
    apply startsWith_eq in H2.
    set (r := skipn (length (js "**")) line) in H2. clearbody r. subst line.
    cbn. intros H. specialize (L r). unfold unmarked in L. rewrite H in L.
    cbn [length] in L. lia. }
  destruct (JS.startsWith line (js "-")) eqn:H1.
  { apply startsWith_eq in H1.
    set (r := skipn (length (js "-")) line) in H1. clearbody r. subst line.
    cbn [shown JS.substring app length skipn].
    split; [reflexivity|]. split; [cbn; lia|].
    cbn. intros H. specialize (L r). unfold unmarked in L. rewrite H in L.
    cbn [length] in L. lia. }
  cbn [shown]. split; [reflexivity|]. split; [lia|reflexivity].
Qed.

Lemma taken_out_refl (l : jsstring) : taken_out l l.
Proof. induction l; now constructor. Qed.

(** Removing every [**] takes out stars, two at a time, and nothing
    else, whether the scan starts in the open or on the second star of a
    pair. *)
Lemma replaceAll_taken_out (s : jsstring) (skip : nat) :
  skip = 0 \/ (skip = 1 /\ exists r, s = 42%N :: r) ->
  taken_out (JS.replaceAll_from (js "**") [] skip s) s.
Proof.
  revert skip; induction s as [|c r IH]; intros skip H.
  - destruct H as [->|(_ & r' & E)]; [constructor|discriminate E].
  - destruct H as [->|(-> & r' & E)].
    + cbn [JS.replaceAll_from].
      destruct (JS.startsWith (c :: r) (js "**")) eqn:S.
      * apply startsWith_eq in S. cbn in S. injection S as -> S.
        change (length (js "**") - 1) with 1. cbn [app].
        apply taken_out_drop; [reflexivity|].
        apply IH. right. split; [reflexivity|now exists (skipn 1 r)].
      * apply taken_out_keep, IH. now left.
    + injection E as -> _. cbn [JS.replaceAll_from].
      apply taken_out_drop; [reflexivity|]. apply IH. now left.
Qed.

Lemma renderLine_taken_out (line : jsstring) :
  taken_out (shown (renderLine line)) line.
Proof.
  unfold renderLine.
  destruct (JS.startsWith line (js "###")) eqn:H3.
  { apply startsWith_eq in H3.
    set (r := skipn (length (js "###")) line) in H3. clearbody r. subst line.
    rewrite (JSFacts.replace_prefix (js "###") [] r). cbn [shown app].
    do 3 (apply taken_out_drop; [reflexivity|]). apply taken_out_refl. }
  destruct (JS.startsWith line (js "**")) eqn:H2.
  { cbn [shown]. apply replaceAll_taken_out. now left. }
  destruct (JS.startsWith line (js "-")) eqn:H1.
  { apply startsWith_eq in H1.
    set (r := skipn (length (js "-")) line) in H1. clearbody r. subst line.
    cbn [shown JS.substring app length skipn].
    apply taken_out_drop; [reflexivity|]. apply taken_out_refl. }
  apply taken_out_refl.
Qed.

(** A paragraph shows the whole line; a heading, a sub-heading and a list
    item show less than the line. *)
Lemma renderLine_shorter (line : jsstring) :
  match renderLine line with
  | p t => t = line
  | b => length (shown b) < length line
  end.
Proof.
  unfold renderLine.
  destruct (JS.startsWith line (js "###")) eqn:H3.
  { apply startsWith_eq in H3.
    set (r := skipn (length (js "###")) line) in H3. clearbody r. subst line.
    rewrite (JSFacts.replace_prefix (js "###") [] r). cbn. lia. }
  destruct (JS.startsWith line (js "**")) eqn:H2.
  { apply startsWith_eq in H2.
    set (r := skipn (length (js "**")) line) in H2. clearbody r. subst line.
    change (JS.replaceAll (js "**") [] (js "**" ++ r))
      with (JS.replaceAll_from (js "**") [] 0 r).
    destruct (@replaceAll_unmarked r 0) as [_ Le]; [now left|].
    change (js "**" ++ r) with (42%N :: 42%N :: r). cbn [shown length]. lia. }
  destruct (JS.startsWith line (js "-")) eqn:H1.
  { apply startsWith_eq in H1.
    set (r := skipn (length (js "-")) line) in H1. clearbody r. subst line.
    cbn. lia. }
  reflexivity.
Qed.

(** X8.  What the renderer shows of a line is the line with some of its
    marker characters ([#], [*], [-]) taken out and nothing else changed:
    the other characters are all there, in their places, and nothing is
    added.  A line without marker characters is shown whole, as a
    paragraph; so is every paragraph; a heading, a sub-heading and a list
    item show less than their line. *)
Theorem renderer_removes_only_markers (line : jsstring) :
  taken_out (shown (renderLine line)) line
  /\ unmarked (shown (renderLine line)) = unmarked line
  /\ length (shown (renderLine line)) <= length line
  /\ (unmarked line = line -> renderLine line = p line)
  /\ match renderLine line with
     | p t => t = line
     | b => length (shown b) < length line
     end.
Proof.
  destruct (renderLine_unmarked line) as (U & L & P).
  split; [apply renderLine_taken_out|].
  split; [exact U|]. split; [exact L|]. split; [exact P|].
  apply renderLine_shorter.
Qed.

Lemma length_split (sep : JS.char) (s : jsstring) :
  length (JS.split sep s) = S (length (filter (N.eqb sep) s)).
Proof.
  induction s as [|c r IH]; [reflexivity|]. cbn [JS.split filter].
  rewrite (N.eqb_sym sep c). destruct (N.eqb c sep).
  - cbn [length]. now rewrite IH.
  - rewrite <- IH. destruct (JS.split sep r); [discriminate IH|reflexivity].
Qed.

(** X9.  A report text with [n] line breaks is rendered as [n + 1]
    elements, in the order of its lines; a text that ends with a line break
    so ends with an empty paragraph. *)
Theorem renderer_block_count (text : jsstring) :
  length (renderLines text) = S (line_breaks text)
  /\ renderLines (text ++ [JS.nl]) = renderLines text ++ [p []]
  /\ map shown (filter (fun b => match b with p _ => true | _ => false end)
                  (renderLines text))
     = filter (fun l => negb (JS.startsWith l (js "###"))
                        && negb (JS.startsWith l (js "**"))
                        && negb (JS.startsWith l (js "-")))
         (JS.split JS.nl text).
Proof.
  unfold renderLines, line_breaks. split; [|split].
  - now rewrite length_map, length_split.
  - now rewrite JSFacts.split_app, map_app.
  - assert (H : forall l,
      renderLine l
      = if negb (JS.startsWith l (js "###")) && negb (JS.startsWith l (js "**"))
           && negb (JS.startsWith l (js "-"))
        then p l
        else match renderLine l with p _ => h3 [] | b => b end).
    { intros l. unfold renderLine.
      destruct (JS.startsWith l (js "###")); [reflexivity|].
      destruct (JS.startsWith l (js "**")); [reflexivity|].
      destruct (JS.startsWith l (js "-")); reflexivity. }
    induction (JS.split JS.nl text) as [|l ls IH]; [reflexivity|].
    cbn [map filter]. rewrite (H l).
    destruct (negb (JS.startsWith l (js "###")) && negb (JS.startsWith l (js "**"))
              && negb (JS.startsWith l (js "-"))).
    + cbn [map shown]. now rewrite IH.
    + destruct (renderLine l); exact IH.
Qed.

(* ================================================================== *)
(** * Invariants of the runtime *)
(* ================================================================== *)

Lemma forallb_sync_prefix (P : Event -> bool) (t : Trace) :
  forallb P t = true -> forallb P (sync_prefix t) = true.
Proof.
  induction t as [|e t IH]; [reflexivity|]. cbn [forallb]. intros H.
  apply andb_prop in H as [He Ht].
  destruct e; cbn [sync_prefix forallb]; auto; rewrite He; auto.
Qed.

Lemma forallb_after_sync (P : Event -> bool) (t : Trace) :
  forallb P t = true -> forallb P (after_sync t) = true.
Proof.
  induction t as [|e t IH]; [reflexivity|]. cbn [forallb]. intros H.
  pose proof H as H'. apply andb_prop in H as [He Ht].
  destruct e; cbn [after_sync]; auto.
Qed.

Lemma forallb_weaken (P Q : Event -> bool) (t : Trace) :
  (forall e, P e = true -> Q e = true) ->
  forallb P t = true -> forallb Q t = true.
Proof.
  intros PQ. induction t as [|e t IH]; [reflexivity|]. cbn [forallb]. intros H.
  apply andb_prop in H as [He Ht]. now rewrite (PQ e He), IH.
Qed.

Lemma forallb_for_await {S} (P : Event -> bool) (body : S -> Chunk -> M S)
    (cs : list Chunk) (fail : option Exn) (acc : S) :
  (forall o, P (Resumed o) = true) ->
  (forall acc c, forallb P (trace (body acc c)) = true) ->
  forallb P (trace (for_await body acc cs fail)) = true.
Proof.
  intros Hr Hb. revert acc; induction cs as [|c cs IH]; intros acc.
  - destruct fail; cbn; now rewrite Hr.
  - cbn [for_await]. apply forallb_bind; [cbn; now rewrite Hr|intros _].
    apply forallb_bind; [apply Hb|intros acc'; apply IH].
Qed.

(** A property of the state that the events of a kind keep is kept by a
    run of events of that kind. *)
Lemma run_keeps (I : AppState -> Prop) (N : Event -> bool) :
  (forall e s, N e = true -> I s -> I (perform s e)) ->
  forall t s, forallb N t = true -> I s -> I (run t s).
Proof.
  intros Hstep t. induction t as [|e t IH]; intros s Ht Hs; [exact Hs|].
  cbn [forallb] in Ht. apply andb_prop in Ht as [He Ht].
  change (run (e :: t) s) with (run t (perform s e)).
  apply IH; [exact Ht|]. now apply Hstep.
Qed.

Section Invariants.

Context {B : Browser}.

(** A property of the state holds in every reachable configuration when
    it holds at the start, every handler establishes it in its first turn,
    and what handlers do after a suspension keeps it, event by event. *)
Lemma reachable_keeps (I : AppState -> Prop) (N : Event -> bool) :
  I initialState ->
  (forall e s, N e = true -> I s -> I (perform s e)) ->
  (forall a s, I s -> I (run (sync_prefix (trace (handler a s))) s)) ->
  (forall a s, forallb N (after_sync (trace (handler a s))) = true) ->
  forall c, reachable c ->
    I (ui c) /\ Forall (fun k => forallb N (rest k) = true) (pool c).
Proof.
  intros Hinit Hstep Hfirst Hlater c Hc.
  induction Hc as [|c c' _ [Hs Hp] Ht]; [split; [exact Hinit|constructor]|].
  destruct Ht as [c a _|c before after an e t Hpool].
  - unfold launched. cbn [advance ui pool]. split; [now apply Hfirst|].
    apply Forall_app; split; [exact Hp|]. unfold suspended.
    pose proof (Hlater a (ui c)) as Hl.
    destruct (after_sync (trace (handler a (ui c)))); constructor;
      [exact Hl|constructor].
  - cbn [advance ui pool]. rewrite Hpool in Hp.
    apply Forall_app in Hp as [Hb Hp]. apply Forall_cons_iff in Hp as [Hk Ha].
    cbn [rest forallb] in Hk. apply andb_prop in Hk as [He Hk]. split.
    + apply (run_keeps I N Hstep); [|exact Hs].
      cbn [forallb]. rewrite He. now apply forallb_sync_prefix.
    + apply Forall_app; split; [exact Hb|]. apply Forall_app; split; [|exact Ha].
      unfold suspended. pose proof (forallb_after_sync N t Hk) as Hl.
      destruct (after_sync t); constructor; [exact Hl|constructor].
Qed.

Lemma analysis_chunk_harmless (acc : jsstring) (c : Chunk) :
  forallb harmless (trace (analysis_chunk acc c)) = true.
Proof.
  rewrite analysis_chunk_eq.
  destruct (chunk_text c) as [[|x t]|]; try reflexivity.
  now destruct acc.
Qed.

Lemma startAnalysis_harmless (s : AppState) (sdk : Remote) :
  forallb harmless (trace (startAnalysis s sdk)) = true.
Proof.
  destruct (validation_cases s sdk) as [E|Hv]; [now rewrite E|].
  rewrite (startAnalysis_trace sdk Hv), forallb_app.
  change (forallb harmless resets) with true. cbn [andb].
  assert (Hs : forall parts st, forallb harmless (streaming parts st) = true).
  { intros parts st. unfold streaming. rewrite forallb_app.
    rewrite forallb_for_await;
      [|reflexivity|apply analysis_chunk_harmless].
    now destruct (result (for_await analysis_chunk [] (chunks st) (failure st))). }
  unfold attempt, generating.
  destruct (client sdk) as [[]|e]; [|reflexivity].
  destruct (imageFile s) as [f|]; [destruct (blob_readable f); [|reflexivity]|];
    (destruct (generated sdk) as [st|e]; [|reflexivity]);
    cbn [forallb harmless image_neutral report_write_ok andb]; apply Hs.
Qed.

Lemma chat_chunk_harmless (acc : jsstring) (c : Chunk) :
  forallb harmless (trace (chat_chunk acc c)) = true.
Proof.
  rewrite chat_chunk_eq.
  destruct (chunk_text c) as [t|]; [destruct (JS.truthy t)|]; reflexivity.
Qed.

Lemma sendChatMessage_harmless (s : AppState) (response : Res Stream) :
  forallb harmless (trace (sendChatMessage s response)) = true.
Proof.
  unfold sendChatMessage.
  destruct (negb (JS.truthy (JS.trim (chatInput s))) || negb (isSome (chatSession s)));
    [reflexivity|].
  destruct (chatSession s) as [c|]; [|reflexivity].
  apply forallb_bind; [reflexivity|intros _].
  apply forallb_bind; [reflexivity|intros _].
  apply forallb_try_catch; [|reflexivity].
  apply forallb_bind; [now destruct response|intros st].
  apply forallb_bind; [reflexivity|intros _].
  apply forallb_bind; [|reflexivity].
  apply forallb_for_await; [reflexivity|apply chat_chunk_harmless].
Qed.

(** Every handler that is not about the attachment is harmless. *)
Lemma handler_harmless (a : Action) (s : AppState) :
  on_attachment a = false -> forallb harmless (trace (handler a s)) = true.
Proof.
  destruct a; intros H; try discriminate H; try reflexivity.
  - apply startAnalysis_harmless.
  - apply sendChatMessage_harmless.
Qed.

(** A selection touches the attachment in its first turn only, leaves it
    paired, and never writes the report. *)
Lemma handleFileSelect_attachment (files : option File) (s : AppState) :
  (image_paired s -> image_paired (run (sync_prefix (trace (handleFileSelect files))) s))
  /\ forallb image_neutral (after_sync (trace (handleFileSelect files))) = true
  /\ forallb report_write_ok (trace (handleFileSelect files)) = true.
Proof.
  destruct s as [hw ld imf imp isa ar cs ch ci em].
  destruct files as [file|]; [|now repeat split]. unfold handleFileSelect.
  destruct (is_image_name (toLowerCase (name file))); [now repeat split|].
  destruct (JS.endsWith (toLowerCase (name file)) (js ".bin")); [now repeat split|].
  unfold read_text, slice, await.
  destruct (MAX_SIZE <? size file)%N; cbn [blob_readable];
    destruct (blob_readable file); now repeat split.
Qed.

End Invariants.

Section RuntimeInvariants.

Context {B : Browser}.

Lemma handler_report_ok (a : Action) (s : AppState) :
  forallb report_write_ok (trace (handler a s)) = true.
Proof.
  destruct (on_attachment a) eqn:Ea.
  - destruct a; try discriminate Ea; [|reflexivity].
    apply (handleFileSelect_attachment files s).
  - apply forallb_weaken with (P := harmless); [|now apply handler_harmless].
    intros e He. unfold harmless in He. now apply andb_prop in He.
Qed.

Lemma handler_image_later (a : Action) (s : AppState) :
  forallb image_neutral (after_sync (trace (handler a s))) = true.
Proof.
  destruct (on_attachment a) eqn:Ea.
  - destruct a; try discriminate Ea; [|reflexivity].
    apply (handleFileSelect_attachment files s).
  - apply forallb_after_sync.
    apply forallb_weaken with (P := harmless); [|now apply handler_harmless].
    intros e He. unfold harmless in He. now apply andb_prop in He.
Qed.

Lemma image_neutral_keeps (e : Event) (s : AppState) :
  image_neutral e = true -> image_paired s -> image_paired (perform s e).
Proof.
  unfold image_paired. destruct s as [hw ld imf imp isa ar cs ch ci em].
  destruct e as [u|c|o]; [|trivial|trivial].
  destruct u; intros H; try discriminate H; trivial.
Qed.

Lemma handler_image_first (a : Action) (s : AppState) :
  image_paired s -> image_paired (run (sync_prefix (trace (handler a s))) s).
Proof.
  intros Hs. destruct (on_attachment a) eqn:Ea.
  - destruct a; try discriminate Ea.
    + now apply (handleFileSelect_attachment files s).
    + now destruct s.
  - apply (run_keeps image_paired image_neutral image_neutral_keeps); [|exact Hs].
    apply forallb_sync_prefix.
    apply forallb_weaken with (P := harmless); [|now apply handler_harmless].
    intros e He. unfold harmless in He. now apply andb_prop in He.
Qed.

(** X10.  In every reachable configuration the preview is the object URL
    of the attached image when there is one and absent when there is none:
    the two cells are only ever written together, by a file selection or
    by the clear button, and only in the turn of the user's action; no
    suspended handler will write either of them. *)
Theorem attachment_stays_paired (c : Config) :
  reachable c ->
  image_paired (ui c)
  /\ isSome (imagePreview (ui c)) = isSome (imageFile (ui c))
  /\ Forall (fun k => forallb image_neutral (rest k) = true) (pool c).
Proof.
  intros Hc.
  assert (H : image_paired (ui c)
              /\ Forall (fun k => forallb image_neutral (rest k) = true) (pool c)).
  { apply (reachable_keeps image_paired image_neutral);
      [reflexivity | apply image_neutral_keeps
      | intros a s; apply handler_image_first
      | apply handler_image_later | exact Hc]. }
  destruct H as [Hp Hk]. split; [exact Hp|split; [|exact Hk]].
  unfold image_paired in Hp. rewrite Hp. now destruct (imageFile (ui c)).
Qed.

Lemma report_write_ok_keeps (e : Event) (s : AppState) :
  report_write_ok e = true ->
  analysisResult s <> Some [] -> analysisResult (perform s e) <> Some [].
Proof.
  destruct s as [hw ld imf imp isa ar cs ch ci em].
  destruct e as [u|c|o]; [|trivial|trivial].
  destruct u; intros H; try discriminate H; trivial.
  destruct v as [[|x t]|]; try discriminate H; discriminate.
Qed.

(** X11.  In every reachable configuration the report is null or a
    non-empty text, never the empty string; hence the report panel is
    decided by two cells: the rendered report as soon as there is a text
    (also while the analysis still runs), otherwise the placeholder while
    an analysis runs and the welcome text when none does. *)
Theorem report_is_never_empty (c : Config) :
  reachable c ->
  analysisResult (ui c) <> Some []
  /\ renderReport (ui c)
     = match analysisResult (ui c) with
       | Some t => Report (renderLines t)
       | None => if isAnalyzing (ui c) then Skeleton else Welcome
       end.
Proof.
  intros Hc.
  assert (H : analysisResult (ui c) <> Some []
              /\ Forall (fun k => forallb report_write_ok (rest k) = true) (pool c)).
  { apply (reachable_keeps (fun s => analysisResult s <> Some []) report_write_ok);
      [discriminate | apply report_write_ok_keeps | | | exact Hc].
    - intros a s. apply (run_keeps _ report_write_ok report_write_ok_keeps).
      apply forallb_sync_prefix, handler_report_ok.
    - intros a s. apply forallb_after_sync, handler_report_ok. }
  destruct H as [Hp _]. split; [exact Hp|]. unfold renderReport, has_text.
  destruct (analysisResult (ui c)) as [[|x t]|]; [now elim Hp|reflexivity|].
  now destruct (isAnalyzing (ui c)).
Qed.

End RuntimeInvariants.

Lemma image_attached_reachable : reachable (B := Sample.browser) image_attached.
Proof.
  unfold image_attached.
  eapply reachable_turn; [apply reachable_init|]. apply launch; reflexivity.
Qed.

Lemma attachment_stays_paired_witness :
  imagePreview (ui image_attached)
  = Some (createObjectURL (Browser := Sample.browser) (Sample.image_file "map.png")).
Proof.
  pose proof (proj1 (@attachment_stays_paired Sample.browser image_attached
                       image_attached_reachable)) as H.
  exact H.
Defined.

Lemma report_is_never_empty_witness :
  renderReport (ui analysis_started) = Skeleton
  /\ renderReport (ui analysis_completed) = Report [p (js "Report")].
Proof.
  split.
  - exact (proj2 (@report_is_never_empty Sample.browser analysis_started
                    analysis_started_reachable)).
  - exact (proj2 (@report_is_never_empty Sample.browser analysis_completed
                    analysis_completed_reachable)).
Defined.

Lemma tail_good_settles (t : Trace) (a : Abs) :
  tail_good a t = true -> is_settled (abs_run true t a) = true.
Proof.
  revert a; induction t as [|e t IH]; intros a H; [exact H|].
  cbn [tail_good] in H. apply andb_prop in H as [_ H]. now apply IH.
Qed.

Section InFlight.

Context {B : Browser}.

(** X12.  At most one run of [startAnalysis] is ever suspended, and one is
    exactly while [isAnalyzing] is set (the button is disabled by that
    flag, and the run lowers it on each of its ways out); while it is set
    there is no chat session; and resuming the suspended run to its end,
    whatever its stream still delivers, lowers the flag. *)
Theorem one_analysis_at_a_time (c : Config) :
  reachable c ->
  length (filter analysis (pool c)) = (if isAnalyzing (ui c) then 1 else 0)
  /\ (isAnalyzing (ui c) = true -> chatSession (ui c) = None)
  /\ Forall (fun k => analysis k = true ->
                      isAnalyzing (run (rest k) (ui c)) = false) (pool c).
Proof.
  intros Hc. destruct (inv_reachable Hc) as (_ & I2 & I3 & I4).
  change (analyzing (abstract c)) with (isAnalyzing (ui c)) in I2, I4.
  split; [exact I4|split].
  - intros Ha. apply I2 in Ha. apply (f_equal has_session) in Ha.
    cbn in Ha. now destruct (chatSession (ui c)).
  - apply Forall_forall. intros k Hin Hk.
    rewrite Forall_forall in I3. pose proof (I3 k Hin) as Hok.
    unfold task_ok in Hok. rewrite Hk in Hok.
    assert (Ha : isAnalyzing (ui c) = true).
    { destruct (isAnalyzing (ui c)); [reflexivity|].
      assert (Hf : In k (filter analysis (pool c))) by (apply filter_In; now split).
      destruct (filter analysis (pool c)); [destruct Hf|discriminate I4]. }
    apply I2 in Ha. apply tail_good_settles in Hok. rewrite <- Ha in Hok.
    unfold abstract in Hok. rewrite <- abs_of_run in Hok.
    unfold is_settled in Hok. apply andb_prop in Hok as [Hok _].
    cbn [abs_of analyzing] in Hok. now destruct (isAnalyzing (run (rest k) (ui c))).
Qed.

End InFlight.

Lemma one_analysis_at_a_time_witness :
  length (filter analysis (pool analysis_started)) = 1
  /\ length (filter analysis (pool analysis_completed)) = 0.
Proof.
  split.
  - exact (proj1 (@one_analysis_at_a_time Sample.browser analysis_started
                    analysis_started_reachable)).
  - exact (proj1 (@one_analysis_at_a_time Sample.browser analysis_completed
                    analysis_completed_reachable)).
Defined.

(* ================================================================== *)
(** * The calls and the outcome of an analysis *)
(* ================================================================== *)

Lemma calls_do (c : Call) (t : Trace) : calls (Do c :: t) = c :: calls t.
Proof. reflexivity. Qed.

Lemma calls_resumed (o : Outcome) (t : Trace) : calls (Resumed o :: t) = calls t.
Proof. reflexivity. Qed.

Section AnalysisCalls.

Context {B : Browser}.

Lemma streaming_calls (parts : list Part) (st : Stream) :
  calls (streaming parts st)
  = match failure st with
    | None => [chats_create (session parts (fold_left (@app JS.char) (deltas (chunks st)) []))]
    | Some e => [console_error e]
    end.
Proof.
  unfold streaming. rewrite calls_app, (proj2 (loop_quiet _ _ _)), loop_result.
  now destruct (failure st).
Qed.

(** X13.  A run of [startAnalysis] past validation builds the client
    once; it asks the model once, with the parts of this state, exactly if
    the client was built and the attachment (if any) could be read, and
    never a second time, whatever fails; it creates the chat session once,
    from these parts and the whole streamed text, exactly if the run
    succeeds.  The attachment is read at most once, and only when the
    client was built. *)
Theorem analysis_calls_once (s : AppState) (sdk : Remote) :
  passes_validation s ->
  remote_calls (trace (startAnalysis s sdk))
  = new_GoogleGenAI
    :: (if requests s sdk
        then generateContentStream (request (parts_of s))
             :: (if succeeds s sdk
                 then [chats_create (session (parts_of s) (full_text sdk))]
                 else [])
        else [])
  /\ filter is_read (calls (trace (startAnalysis s sdk)))
     = match client sdk, imageFile s with
       | Ok _, Some f => [readAsDataURL f]
       | _, _ => []
       end.
Proof.
  intros Hv. rewrite (startAnalysis_trace sdk Hv). unfold remote_calls.
  rewrite calls_app. change (calls resets) with (@nil Call). cbn [app].
  unfold attempt, generating, requests, succeeds, full_text.
  destruct (client sdk) as [[]|e]; [|now split].
  destruct (imageFile s) as [f|];
    [destruct (blob_readable f); [|now split]|];
    (destruct (generated sdk) as [st|e]; [|now split]);
    repeat (rewrite calls_do || rewrite calls_resumed); rewrite streaming_calls;
    now destruct (failure st).
Qed.

End AnalysisCalls.

Lemma analysis_calls_once_witness :
  remote_calls (trace (startAnalysis (B := Sample.browser) pasted
                         (Sample.sdk_ok [Sample.fragment "Report"])))
  = [new_GoogleGenAI;
     generateContentStream (request [prompt pasted]);
     chats_create (session [prompt pasted] (js "Report"))].
Proof.
  assert (Hv : passes_validation pasted) by (left; reflexivity).
  exact (proj1 (@analysis_calls_once Sample.browser pasted
                  (Sample.sdk_ok [Sample.fragment "Report"]) Hv)).
Defined.

(** A run of events that write nothing but the report changes nothing
    but the report. *)
Lemma run_report_only (t : Trace) (s : AppState) :
  forallb report_only t = true ->
  run t s = update (setAnalysisResult (analysisResult (run t s))) s.
Proof.
  revert s; induction t as [|e t IH]; intros s H; [now destruct s|].
  cbn [forallb] in H. apply andb_prop in H as [He Ht].
  change (run (e :: t) s) with (run t (perform s e)).
  rewrite (IH _ Ht). set (v := analysisResult _). clearbody v.
  destruct s; destruct e as [[]| |]; try discriminate He; reflexivity.
Qed.

Lemma analysis_chunk_report_only (acc : jsstring) (c : Chunk) :
  forallb report_only (trace (analysis_chunk acc c)) = true.
Proof.
  rewrite analysis_chunk_eq.
  destruct (chunk_text c) as [t|]; [destruct (JS.truthy t)|]; reflexivity.
Qed.

Section AnalysisOutcome.

Context {B : Browser}.

(** A successful run is a stretch of calls, resumptions and writes of
    the report, followed by what follows the stream. *)
Lemma successful_attempt (s : AppState) (sdk : Remote) :
  succeeds s sdk = true ->
  exists mid,
    attempt s sdk = mid ++ concluded (parts_of s) (full_text sdk)
    /\ forallb report_only mid = true
    /\ analysisResult_writes mid
       = match generated sdk with
         | Ok st => map Some (running [] (deltas (chunks st)))
         | Err _ => []
         end.
Proof.
  unfold succeeds, attempt, generating, streaming, full_text.
  destruct (client sdk) as [[]|e]; [|discriminate].
  destruct (generated sdk) as [st|e]; [|discriminate].
  rewrite loop_result.
  destruct (failure st) as [e|] eqn:Ef; [discriminate|]. cbn [andb]. intros Hr.
  pose proof (forallb_for_await report_only analysis_chunk (chunks st) None []
                (fun _ => eq_refl) analysis_chunk_report_only) as Hl.
  pose proof (loop_writes (chunks st) None []) as Hw.
  set (loop := trace (for_await analysis_chunk [] (chunks st) None)) in *.
  destruct (imageFile s) as [f|].
  - rewrite Hr.
    exists ([Do new_GoogleGenAI; Do (readAsDataURL f); Resumed Fulfilled;
             Do (generateContentStream (request (parts_of s))); Resumed Fulfilled]
              ++ loop).
    split; [now rewrite <- app_assoc|]. split.
    + now rewrite forallb_app, Hl.
    + now rewrite analysisResult_writes_app, Hw.
  - exists ([Do new_GoogleGenAI;
             Do (generateContentStream (request (parts_of s))); Resumed Fulfilled]
              ++ loop).
    split; [now rewrite <- app_assoc|]. split.
    + now rewrite forallb_app, Hl.
    + now rewrite analysisResult_writes_app, Hw.
Qed.

(** X14.  The state a successful run of [startAnalysis] ends in, whatever
    it started from: the report is the whole streamed text, or null when
    the stream carried no text at all; the session is built from the parts
    sent and that text; the flag is lowered, the error message and the chat
    history are empty; the form, the attachment and the chat input are as
    they were.  The report panel then shows the rendered text, or the
    welcome text when there is none. *)
Theorem analysis_success_state (s : AppState) (sdk : Remote) :
  passes_validation s ->
  succeeds s sdk = true ->
  run (trace (startAnalysis s sdk)) s
  = {| hardware := hardware s; logData := logData s;
       imageFile := imageFile s; imagePreview := imagePreview s;
       isAnalyzing := false;
       analysisResult := if JS.truthy (full_text sdk)
                         then Some (full_text sdk) else None;
       chatSession := Some (session (parts_of s) (full_text sdk));
       chatHistory := []; chatInput := chatInput s; errorMsg := [] |}
  /\ renderReport (run (trace (startAnalysis s sdk)) s)
     = if JS.truthy (full_text sdk)
       then Report (renderLines (full_text sdk)) else Welcome.
Proof.
  intros Hv Hs.
  assert (E : run (trace (startAnalysis s sdk)) s
              = {| hardware := hardware s; logData := logData s;
                   imageFile := imageFile s; imagePreview := imagePreview s;
                   isAnalyzing := false;
                   analysisResult := if JS.truthy (full_text sdk)
                                     then Some (full_text sdk) else None;
                   chatSession := Some (session (parts_of s) (full_text sdk));
                   chatHistory := []; chatInput := chatInput s; errorMsg := [] |}).
  { rewrite (startAnalysis_trace sdk Hv).
    destruct (successful_attempt s sdk Hs) as (mid & -> & Hm & Hw).
    rewrite !run_app, (run_report_only mid (run resets s) Hm).
    rewrite analysisResult_run, Hw.
    assert (Hlast : last match generated sdk with
                         | Ok st => map Some (running [] (deltas (chunks st)))
                         | Err _ => []
                         end (analysisResult (run resets s))
                    = if JS.truthy (full_text sdk) then Some (full_text sdk) else None).
    { unfold full_text. destruct (generated sdk) as [st|e].
      - replace (analysisResult (run resets s)) with (@None jsstring)
          by now destruct s.
        apply last_running_deltas.
      - now destruct s. }
    rewrite Hlast. now destruct s. }
  split; [exact E|]. rewrite E. unfold renderReport, has_text.
  cbn [analysisResult isAnalyzing].
  destruct (JS.truthy (full_text sdk)) eqn:Et; [now rewrite Et|reflexivity].
Qed.

End AnalysisOutcome.

Lemma analysis_success_state_witness :
  renderReport (run (trace (startAnalysis (B := Sample.browser) pasted
                              (Sample.sdk_ok [Sample.fragment "Report"]))) pasted)
  = Report [p (js "Report")].
Proof.
  assert (Hv : passes_validation pasted) by (left; reflexivity).
  exact (proj2 (@analysis_success_state Sample.browser pasted
                  (Sample.sdk_ok [Sample.fragment "Report"]) Hv eq_refl)).
Defined.

(* ================================================================== *)
(** * The chat stream *)
(* ================================================================== *)

Lemma assign_last_snoc {A} (l : list A) (a b : A) :
  assign_last (l ++ [a]) b = l ++ [b].
Proof.
  unfold assign_last. rewrite length_app. cbn [length].
  replace (length l + 1) with (S (length l)) by lia.
  now rewrite firstn_app, firstn_all, Nat.sub_diag, app_nil_r.
Qed.

Lemma chat_loop_result (cs : list Chunk) (fail : option Exn) (acc : jsstring) :
  result (for_await chat_chunk acc cs fail)
  = match fail with
    | None => Ok (fold_left (@app JS.char) (deltas cs) acc)
    | Some e => Err e
    end.
Proof.
  revert acc; induction cs as [|c cs IH]; intros acc.
  - destruct fail; reflexivity.
  - cbn [for_await]. unfold emit. rewrite bind_ok, chat_chunk_eq.
    unfold deltas in *. cbn [flat_map].
    destruct (chunk_text c) as [t|]; [destruct (JS.truthy t)|];
      rewrite bind_ok; cbn [result snd fold_left app]; apply IH.
Qed.

Lemma chat_loop_calls (cs : list Chunk) (fail : option Exn) (acc : jsstring) :
  calls (trace (for_await chat_chunk acc cs fail)) = [].
Proof.
  revert acc; induction cs as [|c cs IH]; intros acc.
  - destruct fail; reflexivity.
  - cbn [for_await]. unfold emit. rewrite bind_ok, chat_chunk_eq.
    destruct (chunk_text c) as [t|]; [destruct (JS.truthy t)|];
      rewrite bind_ok; cbn [trace fst app];
      rewrite ?calls_app; apply IH.
Qed.

(** Run with nothing else going on, the loop turns the entry it started
    with into the whole text, and touches nothing else. *)
Lemma chat_loop_run (cs : list Chunk) (fail : option Exn) (acc : jsstring)
    (s : AppState) (l : list Message) :
  chatHistory s = l ++ [{| role := model; text := acc |}] ->
  run (trace (for_await chat_chunk acc cs fail)) s
  = update (setChatHistory
              (l ++ [{| role := model;
                        text := fold_left (@app JS.char) (deltas cs) acc |}])) s.
Proof.
  revert acc s; induction cs as [|c cs IH]; intros acc s H.
  - destruct s; cbn in H; subst; destruct fail; reflexivity.
  - cbn [for_await]. unfold emit. rewrite bind_ok, chat_chunk_eq.
    unfold deltas in *. cbn [flat_map].
    destruct (chunk_text c) as [t|]; [destruct (JS.truthy t)|];
      rewrite bind_ok; cbn [trace fst app fold_left];
      change (run (Resumed (Yielded c) :: ?t) s) with (run t s);
      try (now apply IH).
    match goal with
    | |- run (Upd ?u :: ?r) s = _ => change (run (Upd u :: r) s) with (run r (update u s))
    end.
    rewrite IH.
    + now destruct s.
    + destruct s; cbn in H |- *. subst. apply assign_last_snoc.
Qed.

Section ChatStream.

Context {B : Browser}.

(** What a run of [sendChatMessage] does once it is past its guard and
    the stream opens. *)
Lemma sendChatMessage_trace (s : AppState) (session_ : Chat) (st : Stream) :
  chatSession s = Some session_ ->
  blank (chatInput s) = false ->
  trace (sendChatMessage s (Ok st))
  = [Upd (setChatInput []);
     Upd (push {| role := user; text := chatInput s |});
     Do (sendMessageStream session_ (chatInput s));
     Resumed Fulfilled;
     Upd (push placeholder)]
    ++ trace (for_await chat_chunk [] (chunks st) (failure st))
    ++ match failure st with
       | Some e => [Upd (push (error_entry e))]
       | None => []
       end.
Proof.
  intros Hc Hin. unfold sendChatMessage.
  rewrite JSFacts.truthy_trim, Hc, Hin. cbn [negb orb isSome].
  unfold set, emit, await. rewrite !bind_ok. cbn [trace fst app].
  do 2 f_equal. cbn [settled].
  rewrite (M_eta (for_await chat_chunk [] (chunks st) (failure st))).
  rewrite chat_loop_result.
  destruct (failure st) as [e|]; cbn; now rewrite ?app_nil_r.
Qed.

(** X15.  The state a run of [sendChatMessage] ends in when the stream
    opens and nothing else runs in between, whatever the stream delivers:
    the history has gained the user's message and one model entry with the
    concatenation of the non-empty text deltas (empty when there are none),
    and, when the stream throws midway, a further model entry with the
    error, the text received until then being kept; the input is cleared;
    no other cell changes; the only call is the one that sends the
    message. *)
Theorem chat_stream_state (s : AppState) (session_ : Chat) (st : Stream) :
  chatSession s = Some session_ ->
  blank (chatInput s) = false ->
  let t := trace (sendChatMessage s (Ok st)) in
  run t s
  = update (setChatInput [])
      (update (setChatHistory
                 (chatHistory s
                  ++ {| role := user; text := chatInput s |} :: answer st)) s)
  /\ calls t = [sendMessageStream session_ (chatInput s)].
Proof.
  intros Hc Hin. cbv zeta. rewrite (@sendChatMessage_trace s session_ st Hc Hin). split.
  - rewrite !run_app.
    rewrite (@chat_loop_run (chunks st) (failure st) [] _
               (chatHistory s ++ [{| role := user; text := chatInput s |}])).
    + unfold answer, accumulated.
      destruct s; destruct (failure st); cbn; now rewrite <- !app_assoc.
    + now destruct s.
  - rewrite !calls_app, chat_loop_calls. now destruct (failure st).
Qed.

End ChatStream.

Lemma chat_stream_state_witness :
  chatHistory
    (run (trace (sendChatMessage chatting
                   (Ok {| chunks := [Sample.fragment "It "; Sample.fragment "flies"];
                          failure := Some {| message := Some (js "cut") |} |})))
         chatting)
  = [ {| role := user; text := js "test" |};
      {| role := model; text := js "It flies" |};
      {| role := model; text := js "Error: cut" |} ].
Proof.
  assert (Hin : blank (chatInput chatting) = false) by reflexivity.
  exact (f_equal chatHistory
           (proj1 (@chat_stream_state chatting _
                     {| chunks := [Sample.fragment "It "; Sample.fragment "flies"];
                        failure := Some {| message := Some (js "cut") |} |}
                     eq_refl Hin))).
Defined.

Section ChatRace.

Context {B : Browser}.

Lemma launched_send (c : Config) (session_ : Chat) (st : Stream) :
  chatSession (ui c) = Some session_ ->
  blank (chatInput (ui c)) = false ->
  launched (SendChat (Ok st)) c
  = {| ui := update (push {| role := user; text := chatInput (ui c) |})
               (update (setChatInput []) (ui c));
       pool := pool c ++ [{| analysis := false; rest := chat_rest st |}];
       completed := completed c |}.
Proof.
  intros Hc Hin. unfold launched. cbn [handler is_analysis].
  rewrite (@sendChatMessage_trace (ui c) session_ st Hc Hin).
  reflexivity.
Qed.

Lemma reachable_launched (a : Action) (c : Config) :
  reachable c -> enabled a (ui c) = true -> reachable (launched a c).
Proof.
  intros Hr He. apply reachable_turn with (c := c); [exact Hr|].
  now apply launch.
Qed.

Lemma reachable_resume_first (c : Config) :
  reachable c -> reachable (resume_first c).
Proof.
  intros Hr. unfold resume_first.
  destruct (pool c) as [|[an [|e t]] after] eqn:E; try exact Hr.
  apply reachable_turn with (c := c); [exact Hr|].
  exact (resume c [] after an e t E).
Qed.

Lemma reachable_resume_second (c : Config) :
  reachable c -> reachable (resume_second c).
Proof.
  intros Hr. unfold resume_second.
  destruct (pool c) as [|k [|[an [|e t]] after]] eqn:E; try exact Hr.
  apply reachable_turn with (c := c); [exact Hr|].
  exact (resume c [k] after an e t E).
Qed.

(** X16.  The update of a streamed answer goes to the last entry of the
    history, whichever that is.  When a second message is sent before the
    first is answered and the two handlers are resumed in turn, the
    fragment of the first answer lands in the entry opened for the second,
    and the fragment of the second overwrites it: the history ends with
    both questions, an entry left empty, and the second answer only.
    When the first handler is resumed to its end before the second, each
    answer is in an entry of its own, after both questions. *)
Theorem answers_in_flight_share_last_entry (c : Config) (session_ : Chat)
    (m2 x y : jsstring) :
  reachable c ->
  pool c = [] ->
  chatSession (ui c) = Some session_ ->
  blank (chatInput (ui c)) = false ->
  blank m2 = false ->
  x <> [] -> y <> [] ->
  reachable (two_chats m2 x y c)
  /\ pool (two_chats m2 x y c) = []
  /\ chatHistory (ui (two_chats m2 x y c))
     = chatHistory (ui c)
       ++ [ {| role := user; text := chatInput (ui c) |};
            {| role := user; text := m2 |};
            placeholder;
            {| role := model; text := y |} ]
  /\ chatHistory (ui (two_chats_in_order m2 x y c))
     = chatHistory (ui c)
       ++ [ {| role := user; text := chatInput (ui c) |};
            {| role := user; text := m2 |};
            {| role := model; text := x |};
            {| role := model; text := y |} ].
Proof.
  intros Hr Hp Hc Hin Hm2 Hx Hy.
  assert (Hreach : reachable (two_chats m2 x y c)).
  { unfold two_chats, two_chats_sent.
    repeat (apply reachable_resume_first || apply reachable_resume_second).
    repeat (apply reachable_launched; [|reflexivity]). exact Hr. }
  split; [exact Hreach|]. clear Hreach Hr.
  destruct x as [|x0 x]; [contradiction|]. destruct y as [|y0 y]; [contradiction|].
  destruct c as [s pl d]. cbn [ui pool] in Hp, Hc, Hin |- *. subst pl.
  destruct s as [hw ld imf imp isa ar cs ch ci em].
  cbn [chatSession chatInput chatHistory] in Hc, Hin |- *. subst cs.
  set (sx := answered (x0 :: x)). set (sy := answered (y0 :: y)).
  assert (Hsent :
    two_chats_sent m2 (x0 :: x) (y0 :: y)
      {| ui := Build_AppState hw ld imf imp isa ar (Some session_) ch ci em;
         pool := []; completed := d |}
    = {| ui := Build_AppState hw ld imf imp isa ar (Some session_)
                 ((ch ++ [{| role := user; text := ci |}])
                  ++ [{| role := user; text := m2 |}]) [] em;
         pool := [{| analysis := false; rest := chat_rest sx |};
                  {| analysis := false; rest := chat_rest sy |}];
         completed := d |}).
  { unfold two_chats_sent. fold sx sy.
    rewrite (@launched_send {| ui := Build_AppState hw ld imf imp isa ar
                                       (Some session_) ch ci em;
                               pool := []; completed := d |} session_ sx eq_refl Hin).
    unfold launched at 2.
    cbn [handler is_analysis trace set emit fst sync_prefix suspended after_sync
         advance ui pool completed fold_left track run perform app update push
         chatInput].
    rewrite (@launched_send _ session_ sy); [reflexivity|reflexivity|exact Hm2]. }
  unfold two_chats, two_chats_in_order. rewrite Hsent.
  clear Hsent. subst sx sy. unfold chat_rest, answered, placeholder, push.
  split; [reflexivity|]. split; cbn.
  - now rewrite !assign_last_snoc, <- !app_assoc.
  - now rewrite !assign_last_snoc, <- !app_assoc.
Qed.

End ChatRace.

Lemma question_typed_reachable : reachable (B := Sample.browser) question_typed.
Proof.
  unfold question_typed.
  apply (reachable_launched (B := Sample.browser));
    [apply analysis_completed_reachable|reflexivity].
Qed.

Lemma answers_in_flight_share_last_entry_witness :
  chatHistory (ui (two_chats (B := Sample.browser)
                     (js "more") (js "one") (js "two") question_typed))
  = [ {| role := user; text := js "test" |};
      {| role := user; text := js "more" |};
      placeholder;
      {| role := model; text := js "two" |} ].
Proof.
  assert (Hx : js "one" <> []) by discriminate.
  assert (Hy : js "two" <> []) by discriminate.
  assert (Hin : blank (chatInput (ui question_typed)) = false) by reflexivity.
  assert (Hm : blank (js "more") = false) by reflexivity.
  exact (proj1 (proj2 (proj2
           (@answers_in_flight_share_last_entry Sample.browser question_typed _
              (js "more") (js "one") (js "two")
              question_typed_reachable eq_refl eq_refl Hin Hm Hx Hy)))).
Defined.
